(** * httpbun: the per-request Exchange and the route dispatcher

  A shallow embedding of package [exchange] (the Exchange type with its
  constructor, accessors and response helpers) and of [Server.ServeHTTP]
  from package [server], together with the parts of the Go standard
  library these functions call ([strings], [net/textproto], [net/http],
  [net/url], [io], [regexp], [net], [fmt]).

  Go strings are byte sequences and are modelled as [string] (a list of
  8-bit [ascii]).  Go maps are [gmap]s; a lookup of a missing key yields
  the zero value, which is written out at every access.  Mutable objects
  reached through a pointer or an interface (the response writer, the
  field map, the capped body reader, the log) are passed in and returned
  explicitly. *)

From Stdlib Require Import ZArith String Ascii List Lia Bool.
From Stdlib Require Import DecimalString DecimalPos.
From stdpp Require Import base option list gmap strings.

Open Scope string_scope.
Open Scope list_scope.
Open Scope Z_scope.

(** Go's [byte]. *)
Abbreviation byte := Byte.byte.

(** The double quote character (0x22). *)
Definition dquote : ascii := "034"%char.

(* ================================================================== *)
(** * Package [strings] *)

Module strings.

(** [func HasPrefix(s, prefix string) bool {
       return len(s) >= len(prefix) && s[:len(prefix)] == prefix }] *)
Definition HasPrefix (s prefix : string) : bool :=
  (String.length prefix <=? String.length s)%nat
  && String.eqb (substring 0 (String.length prefix) s) prefix.

(** [func TrimPrefix(s, prefix string) string {
       if HasPrefix(s, prefix) { return s[len(prefix):] }; return s }] *)
Definition TrimPrefix (s prefix : string) : string :=
  if HasPrefix s prefix
  then substring (String.length prefix)
                 (String.length s - String.length prefix) s
  else s.

(** [Contains(s, substr)] is [Index(s, substr) >= 0]: [substr] occurs in
    [s] at some offset.  The search tries every offset from the left. *)
Fixpoint Contains (s substr : string) : bool :=
  HasPrefix s substr
  || match s with
     | EmptyString => false
     | String _ s' => Contains s' substr
     end.

(** [IndexByte(s, c)]: offset of the first [c] in [s], or [-1]. *)
Fixpoint IndexByte (s : string) (c : ascii) : Z :=
  match s with
  | EmptyString => -1
  | String d s' =>
      if Ascii.eqb d c then 0
      else let i := IndexByte s' c in if i <? 0 then -1 else i + 1
  end.

(** [LastIndexByte(s, c)]: offset of the last [c] in [s], or [-1]. *)
Fixpoint LastIndexByte (s : string) (c : ascii) : Z :=
  match s with
  | EmptyString => -1
  | String d s' =>
      let i := LastIndexByte s' c in
      if 0 <=? i then i + 1
      else if Ascii.eqb d c then 0 else -1
  end.

(** [strings.Cut(s, sep)] for a one-byte separator: the text before and
    after the first [sep], and whether [sep] was found. *)
Fixpoint CutByte (s : string) (sep : ascii) : string * string * bool :=
  match s with
  | EmptyString => (EmptyString, EmptyString, false)
  | String d s' =>
      if Ascii.eqb d sep then (EmptyString, s', true)
      else let '(b, a, found) := CutByte s' sep in (String d b, a, found)
  end.

End strings.

(* ================================================================== *)
(** * Package [net/textproto]: MIME headers *)

Module textproto.

Definition in_range (lo hi c : ascii) : bool :=
  (nat_of_ascii lo <=? nat_of_ascii c)%nat
  && (nat_of_ascii c <=? nat_of_ascii hi)%nat.

Definition is_lower (c : ascii) : bool := in_range "a" "z" c.
Definition is_upper (c : ascii) : bool := in_range "A" "Z" c.
Definition is_digit (c : ascii) : bool := in_range "0" "9" c.

(** [validHeaderFieldByte]: the token characters of RFC 7230. *)
Definition validHeaderFieldByte (c : ascii) : bool :=
  is_lower c || is_upper c || is_digit c
  || existsb (Ascii.eqb c)
       ["!"; "#"; "$"; "%"; "&"; "'"; "*"; "+"; "-"; "."; "^"; "_"; "`";
        "|"; "~"]%char.

Definition to_upper (c : ascii) : ascii :=
  if is_lower c then ascii_of_nat (nat_of_ascii c - 32) else c.
Definition to_lower (c : ascii) : ascii :=
  if is_upper c then ascii_of_nat (nat_of_ascii c + 32) else c.

Fixpoint all_valid (s : string) : bool :=
  match s with
  | EmptyString => true
  | String c s' => validHeaderFieldByte c && all_valid s'
  end.

(** The canonicalising loop: upper case for the first letter and for a
    letter that follows a dash, lower case for every other letter. *)
Fixpoint canon (upper : bool) (s : string) : string :=
  match s with
  | EmptyString => EmptyString
  | String c s' =>
      let c' := if upper then to_upper c else to_lower c in
      String c' (canon (Ascii.eqb c' "-") s')
  end.

(** [CanonicalMIMEHeaderKey]: a key with a byte that is not a token
    character (a space included) is returned unchanged. *)
Definition CanonicalMIMEHeaderKey (s : string) : string :=
  if all_valid s then canon true s else s.

(** [type MIMEHeader map[string][]string] *)
Abbreviation MIMEHeader := (gmap string (list string)).

(** [h[key]]: the values stored under the literal key; nil when absent. *)
Definition index (h : MIMEHeader) (key : string) : list string :=
  default [] (h !! key).

(** [func (h MIMEHeader) Set(key, value string) {
       h[CanonicalMIMEHeaderKey(key)] = []string{value} }] *)
Definition Set_ (h : MIMEHeader) (key value : string) : MIMEHeader :=
  <[CanonicalMIMEHeaderKey key := [value]]> h.

(** [func (h MIMEHeader) Get(key string) string]: the first value under
    the canonical key, or the empty string. *)
Definition Get (h : MIMEHeader) (key : string) : string :=
  match index h (CanonicalMIMEHeaderKey key) with
  | [] => ""
  | v :: _ => v
  end.

(** [func (h MIMEHeader) Del(key string)] *)
Definition Del (h : MIMEHeader) (key : string) : MIMEHeader :=
  delete (CanonicalMIMEHeaderKey key) h.

End textproto.

(* ================================================================== *)
(** * Go [error] values *)

(** The error values that reach this code.  [fmt.Errorf(format, args...)]
  is kept as the call that built it: its message is
  [fmt.Sprintf format args]. *)
Inductive error : Type :=
| EOF                                              (* io.EOF *)
| Errorf (format : string) (args : list string)    (* fmt.Errorf *)
| AddrError (Err Addr : string)                    (* *net.AddrError *)
| EscapeError (s : string)                         (* url.EscapeError *)
| ConnError (msg : string).                        (* an error of the connection *)

(* ================================================================== *)
(** * Package [strconv] and [fmt]: the verbs %s and %q *)

Module strconv.

Definition lowerhex (n : nat) : ascii :=
  nth n ["0"; "1"; "2"; "3"; "4"; "5"; "6"; "7"; "8"; "9";
         "a"; "b"; "c"; "d"; "e"; "f"]%char "0"%char.

(** [appendEscapedRune] for a rune below [utf8.RuneSelf] with the double
    quote as the quote character: the quote and the backslash are
    backslashed, the printable ASCII characters (0x20 to 0x7e) are
    copied, and a control character becomes its escape. *)
Definition escape_ascii (c : ascii) : string :=
  let n := nat_of_ascii c in
  if Ascii.eqb c dquote then String "\" (String dquote "")
  else if Ascii.eqb c "\" then "\\"
  else if (32 <=? n)%nat && (n <=? 126)%nat then String c ""
  else if (n =? 7)%nat then "\a"
  else if (n =? 8)%nat then "\b"
  else if (n =? 12)%nat then "\f"
  else if (n =? 10)%nat then "\n"
  else if (n =? 13)%nat then "\r"
  else if (n =? 9)%nat then "\t"
  else if (n =? 11)%nat then "\v"
  else String "\" (String "x" (String (lowerhex (n / 16))
                                 (String (lowerhex (n mod 16)) ""))).

Definition is_high (c : ascii) : bool := (128 <=? nat_of_ascii c)%nat.

Section Quote.
(** What [Quote] writes for a maximal run of bytes at or above 0x80
    (UTF-8 decoding and the table of printable runes of package
    [unicode]): taken as a parameter.  A rune that starts in such a
    run ends in it, and a byte below 0x80 is a rune of its own, so
    the runs are quoted independently of the text around them. *)
Variable quoteNonASCII : string -> string.

Definition flush (run : string) : string :=
  match run with EmptyString => EmptyString | _ => quoteNonASCII run end.

Fixpoint quote_go (run s : string) : string :=
  match s with
  | EmptyString => flush run
  | String c s' =>
      if is_high c then quote_go (run +:+ String c "") s'
      else flush run +:+ escape_ascii c +:+ quote_go "" s'
  end.

(** [strconv.Quote(s)]: a double-quoted Go string literal. *)
Definition Quote (s : string) : string :=
  String dquote (quote_go "" s +:+ String dquote "").
End Quote.

Fixpoint isDigits (s : string) : bool :=
  match s with
  | EmptyString => true
  | String c rest =>
      (48 <=? nat_of_ascii c)%nat && (nat_of_ascii c <=? 57)%nat
      && isDigits rest
  end.

(** The number a string of decimal digits writes, after the digits
    that gave [acc]. *)
Fixpoint digitsValue (acc : Z) (s : string) : Z :=
  match s with
  | EmptyString => acc
  | String c rest =>
      digitsValue (10 * acc + (Z.of_nat (nat_of_ascii c) - 48)) rest
  end.

(** [strconv.Atoi(s)] where [int] has 64 bits: an optional sign, then
    one or more decimal digits, the number being one of an [int];
    [None] for the [*NumError] any other string gives (a syntax error
    or a value out of range). *)
Definition Atoi (s : string) : option Z :=
  let '(neg, digits) :=
    match s with
    | String "-" rest => (true, rest)
    | String "+" rest => (false, rest)
    | _ => (false, s)
    end in
  match digits with
  | EmptyString => None
  | _ =>
      if isDigits digits then
        let n := digitsValue 0 digits in
        let n := if neg then - n else n in
        if (- 2 ^ 63 <=? n) && (n <? 2 ^ 63) then Some n else None
      else None
  end.

End strconv.

Module fmt.

Section Sprintf.
Variable quoteNonASCII : string -> string.

(** The bytes of a string in hexadecimal, two digits each ([%x] with
    the digits [0123456789abcdef], [%X] with [0123456789ABCDEF]). *)
Fixpoint hex (upper : bool) (a : string) : string :=
  match a with
  | EmptyString => EmptyString
  | String c a' =>
      let digit n :=
        if upper then textproto.to_upper (strconv.lowerhex n)
        else strconv.lowerhex n in
      String (digit (nat_of_ascii c / 16)%nat)
        (String (digit (nat_of_ascii c mod 16)%nat) (hex upper a'))
  end.

(** One operand of type string under verb [v]: [%s] and [%v] write the
    string, [%q] quotes it, [%x] and [%X] write its bytes in
    hexadecimal, [%T] writes its type, and any other verb is reported
    as [%!verb(string=operand)]. *)
Definition verb (v : ascii) (a : string) : string :=
  if Ascii.eqb v "s" || Ascii.eqb v "v" then a
  else if Ascii.eqb v "q" then strconv.Quote quoteNonASCII a
  else if Ascii.eqb v "x" then hex false a
  else if Ascii.eqb v "X" then hex true a
  else if Ascii.eqb v "T" then "string"
  else "%!" +:+ String v "(string=" +:+ a +:+ ")".

(** The operands the format did not use, as [type=value] separated by
    a comma and a space. *)
Fixpoint extraArgs (args : list string) : string :=
  match args with
  | [] => EmptyString
  | a :: rest =>
      "string=" +:+ a +:+
      match rest with
      | [] => EmptyString
      | _ :: _ => ", " +:+ extraArgs rest
      end
  end.

(** What is written at the end of the format: nothing when every
    operand was used, and [%!(EXTRA type=value, ...)] otherwise. *)
Definition extra (args : list string) : string :=
  match args with
  | [] => EmptyString
  | _ :: _ => "%!(EXTRA " +:+ extraArgs args +:+ ")"
  end.

(** [fmt.Sprintf] for string operands and verbs written in ASCII with
    no flag, width, precision or argument index.  A verb with no
    operand left is reported as [%!verb(MISSING)], a [%] that ends the
    format as [%!(NOVERB)], and [%%] writes a percent sign and uses no
    operand. *)
Fixpoint Sprintf (format : string) (args : list string) : string :=
  match format with
  | EmptyString => extra args
  | String "%" EmptyString => "%!(NOVERB)" +:+ extra args
  | String "%" (String v rest) =>
      if Ascii.eqb v "%" then String "%" (Sprintf rest args)
      else match args with
           | a :: args' => verb v a +:+ Sprintf rest args'
           | [] => "%!" +:+ String v "(MISSING)" +:+ Sprintf rest []
           end
  | String c rest => String c (Sprintf rest args)
  end.
End Sprintf.

End fmt.

(** [html.EscapeString]: the five characters HTML text and attribute
  values escape. *)
Module html.
Fixpoint EscapeString (s : string) : string :=
  match s with
  | EmptyString => EmptyString
  | String c s' =>
      (if Ascii.eqb c "&" then "&amp;"
       else if Ascii.eqb c "'" then "&#39;"
       else if Ascii.eqb c "<" then "&lt;"
       else if Ascii.eqb c ">" then "&gt;"
       else if Ascii.eqb c dquote then "&#34;"
       else String c "") +:+ EscapeString s'
  end.
End html.


(* ================================================================== *)
(** * Package [net/url] *)

Module url.

(** [type Userinfo struct { username, password string; passwordSet bool }] *)
Record Userinfo : Type := mkUserinfo {
  username : string;
  password : string;
  passwordSet : bool
}.

(** [type URL struct]; [User] is a pointer, nil when there is no user
    information. *)
Record URL : Type := mkURL {
  Scheme : string;
  Opaque : string;
  User : option Userinfo;
  Host : string;
  Path : string;
  RawPath : string;
  ForceQuery : bool;
  RawQuery : string;
  Fragment : string;
  RawFragment : string
}.

(** [type Values map[string][]string] *)
Abbreviation Values := (gmap string (list string)).

(** [v[key]]: nil when the key is absent. *)
Definition index (v : Values) (key : string) : list string :=
  default [] (v !! key).

Definition ishex (c : ascii) : bool :=
  textproto.is_digit c || textproto.in_range "a" "f" c
  || textproto.in_range "A" "F" c.

Definition unhex (c : ascii) : nat :=
  if textproto.is_digit c then nat_of_ascii c - 48
  else if textproto.in_range "a" "f" c then nat_of_ascii c - 97 + 10
  else if textproto.in_range "A" "F" c then nat_of_ascii c - 65 + 10
  else 0.

(** [QueryUnescape]: [%XX] becomes the byte [XX] and [+] a space; a [%]
    that two hexadecimal digits do not follow is an [EscapeError], whose
    text is the (at most three) bytes from that [%]. *)
Fixpoint QueryUnescape (s : string) : string + error :=
  match s with
  | EmptyString => inl EmptyString
  | String "%" rest =>
      match rest with
      | String a (String b rest') =>
          if ishex a && ishex b then
            match QueryUnescape rest' with
            | inl t => inl (String (ascii_of_nat (16 * unhex a + unhex b)) t)
            | inr e => inr e
            end
          else inr (EscapeError (substring 0 3 s))
      | _ => inr (EscapeError (substring 0 3 s))
      end
  | String c rest =>
      match QueryUnescape rest with
      | inl t => inl (String (if Ascii.eqb c "+" then " "%char else c) t)
      | inr e => inr e
      end
  end.

(** The pieces of [query] between ampersands, in order: what the loop
    [for query != "" { key, query, _ = strings.Cut(query, "&") ... }]
    of [parseQuery] binds [key] to (a final empty piece is not visited
    by the loop and is skipped by [parseQuery] in any case). *)
Fixpoint pieces (cur query : string) : list string :=
  match query with
  | EmptyString => [cur]
  | String c rest =>
      if Ascii.eqb c "&" then cur :: pieces EmptyString rest
      else pieces (cur +:+ String c EmptyString) rest
  end.

(** The body of the loop of [parseQuery] for one piece: a piece with a
    semicolon, an empty piece, and a piece whose key or value does not
    unescape add nothing; otherwise the value is appended to the values
    of the key. *)
Definition parsePiece (m : Values) (piece : string) : Values :=
  if strings.Contains piece ";" then m
  else if String.eqb piece "" then m
  else
    let '(key, val, _) := strings.CutByte piece "="%char in
    match QueryUnescape key with
    | inr _ => m
    | inl key =>
        match QueryUnescape val with
        | inr _ => m
        | inl val => <[key := index m key ++ [val]]> m
        end
    end.

(** [func (u *URL) Query() Values { v, _ := ParseQuery(u.RawQuery); return v }]:
    the error of [ParseQuery] is dropped and the values parsed are kept. *)
Definition Query (u : URL) : Values :=
  fold_left parsePiece (pieces EmptyString (RawQuery u)) ∅.

End url.

(** An operand of a printing call: a string, an error, or the text
    [u.String()] of a URL. *)
Inductive value : Type :=
| VString (s : string)
| VError (e : error)
| VURL (u : url.URL).

(** One call of [log.Printf] or [fmt.Println] with its operands; the
    sequence of these calls is what the program prints. *)
Inductive output : Type :=
| log_Printf (format : string) (args : list value)
| fmt_Println (args : list value).

(* ================================================================== *)
(** * Package [io]: readers *)

Module io.

(** The body of a request as the connection delivers it, read through
    [Read(p []byte) (n int, err error)]: the pieces still to arrive and,
    after the last of them, the error every further [Read] returns
    ([EOF] at the end of a complete body). *)
Record Body : Type := mkBody {
  pending : list (list byte);
  final : error
}.

(** [Read] into a buffer of [len_p] bytes: at most [len_p] bytes of the
    next piece, the rest of the piece staying for the next call. *)
Definition Body_Read (b : Body) (len_p : nat)
  : list byte * option error * Body :=
  match pending b with
  | [] => ([], Some (final b), b)
  | c :: cs =>
      (take len_p c, None,
       {| pending := match drop len_p c with
                     | [] => cs
                     | rest => rest :: cs
                     end;
          final := final b |})
  end.

(** [type LimitedReader struct { R Reader; N int64 }] *)
Record LimitedReader : Type := mkLimitedReader {
  R : Body;
  N : Z
}.

(** [func LimitReader(r Reader, n int64) Reader { return &LimitedReader{r, n} }] *)
Definition LimitReader (r : Body) (n : Z) : LimitedReader :=
  {| R := r; N := n |}.

(** [func (l *LimitedReader) Read(p []byte) (n int, err error) {
       if l.N <= 0 { return 0, EOF }
       if int64(len(p)) > l.N { p = p[0:l.N] }
       n, err = l.R.Read(p)
       l.N -= int64(n)
       return }] *)
Definition LimitedReader_Read (l : LimitedReader) (len_p : nat)
  : list byte * option error * LimitedReader :=
  if N l <=? 0 then ([], Some EOF, l)
  else
    let len_p := if N l <? Z.of_nat len_p then Z.to_nat (N l) else len_p in
    let '(data, err, r) := Body_Read (R l) len_p in
    (data, err, {| R := r; N := N l - Z.of_nat (length data) |}).

Section ReadAll.
(** The capacity [append] gives a full buffer that held [c] bytes: the
    runtime's choice, larger than [c]. *)
Variable grow : nat -> nat.

(** The loop of [io.ReadAll], [b] being the bytes read so far and [cap]
    the capacity of the buffer:
    [for {
       n, err := r.Read(b[len(b):cap(b)])
       b = b[:len(b)+n]
       if err != nil { if err == EOF { err = nil }; return b, err }
       if len(b) == cap(b) { b = append(b, 0)[:len(b)] } }] *)
Fixpoint ReadAll_loop (fuel : nat) (r : LimitedReader) (b : list byte)
  (cap : nat) : option (list byte * option error * LimitedReader) :=
  match fuel with
  | O => None
  | S fuel =>
      let '(data, err, r) := LimitedReader_Read r (cap - length b) in
      let b := b ++ data in
      match err with
      | Some EOF => Some (b, None, r)
      | Some e => Some (b, Some e, r)
      | None =>
          ReadAll_loop fuel r b
            (if (length b =? cap)%nat then grow cap else cap)
      end
  end.

(** [func ReadAll(r Reader) ([]byte, error)], starting from
    [make([]byte, 0, 512)]. *)
Definition ReadAll (fuel : nat) (r : LimitedReader)
  : option (list byte * option error * LimitedReader) :=
  ReadAll_loop fuel r [] 512.
End ReadAll.

End io.

(* ================================================================== *)
(** * Package [net/http] *)

Module http.

Definition StatusFound : Z := 302.
Definition StatusNotFound : Z := 404.
Definition StatusBadRequest : Z := 400.

(** [type Request struct]: the fields this code reads. *)
Record Request : Type := mkRequest {
  Method : string;
  URL : url.URL;
  Header : textproto.MIMEHeader;
  Body : io.Body;
  Host : string;
  Form : url.Values;
  RemoteAddr : string
}.

(** A call of [WriteHeader] or [Write] on a response writer. *)
Inductive Call : Type :=
| CallWriteHeader (statusCode : Z)
| CallWrite (data : string).

(** [type ResponseWriter interface { Header() Header; Write([]byte) (int,
    error); WriteHeader(statusCode int) }]: the header map [Header()]
    returns, which callers update in place; the calls of [WriteHeader]
    and [Write] made so far; and the error, if any, with which the
    connection fails every [Write]. *)
Record ResponseWriter : Type := mkResponseWriter {
  Headers : textproto.MIMEHeader;
  calls : list Call;
  broken : option error
}.

(** [w.Header().Set(key, value)] *)
Definition Header_Set (w : ResponseWriter) (key value : string)
  : ResponseWriter :=
  {| Headers := textproto.Set_ (Headers w) key value;
     calls := calls w; broken := broken w |}.

(** [w.Header().Del(key)] *)
Definition Header_Del (w : ResponseWriter) (key : string) : ResponseWriter :=
  {| Headers := textproto.Del (Headers w) key;
     calls := calls w; broken := broken w |}.

(** [w.WriteHeader(statusCode)] *)
Definition WriteHeader (w : ResponseWriter) (statusCode : Z)
  : ResponseWriter :=
  {| Headers := Headers w;
     calls := calls w ++ [CallWriteHeader statusCode];
     broken := broken w |}.

(** [w.Write(data)], with the error it returns. *)
Definition Write (w : ResponseWriter) (data : string)
  : ResponseWriter * option error :=
  ({| Headers := Headers w;
      calls := calls w ++ [CallWrite data];
      broken := broken w |}, broken w).

(** The status line a server sends for these calls: the code of the
    first [WriteHeader], or 200 when [Write] comes first. *)
Definition Status (w : ResponseWriter) : option Z :=
  match calls w with
  | [] => None
  | CallWriteHeader c :: _ => Some c
  | CallWrite _ :: _ => Some 200
  end.

(** The bytes passed to [Write], in order. *)
Definition Written (w : ResponseWriter) : string :=
  fold_right (fun c acc => match c with
                           | CallWrite d => d +:+ acc
                           | CallWriteHeader _ => acc
                           end) EmptyString (calls w).

(** [func Error(w ResponseWriter, error string, code int) {
       h := w.Header()
       h.Del("Content-Length")
       h.Set("Content-Type", "text/plain; charset=utf-8")
       h.Set("X-Content-Type-Options", "nosniff")
       w.WriteHeader(code)
       fmt.Fprintln(w, error) }] *)
Definition Error (w : ResponseWriter) (err : string) (code : Z)
  : ResponseWriter :=
  let w := Header_Del w "Content-Length" in
  let w := Header_Set w "Content-Type" "text/plain; charset=utf-8" in
  let w := Header_Set w "X-Content-Type-Options" "nosniff" in
  let w := WriteHeader w code in
  fst (Write w (err +:+ String (ascii_of_nat 10) EmptyString)).

(** [func NotFound(w ResponseWriter, r *Request) {
       Error(w, "404 page not found", StatusNotFound) }] *)
Definition NotFound (w : ResponseWriter) (r : Request) : ResponseWriter :=
  Error w "404 page not found" StatusNotFound.

End http.

(* ================================================================== *)
(** * Package [net]: peer addresses and IP literals *)

Module net.

(** [s[lo:hi]] *)
Definition slice (s : string) (lo hi : nat) : string :=
  substring lo (hi - lo) s.

(** [s[lo:]] *)
Definition slice_from (s : string) (lo : nat) : string :=
  substring lo (String.length s - lo) s.

Definition missingPort : string := "missing port in address".
Definition tooManyColons : string := "too many colons in address".

(** The end of [SplitHostPort], [j] and [k] being the offsets before
    which no opening resp. closing bracket can stand:
    [if IndexByte(hostport[j:], '[') >= 0 { "unexpected '[' in address" }
     if IndexByte(hostport[k:], ']') >= 0 { "unexpected ']' in address" }
     port = hostport[i+1:]] *)
Definition splitTail (hostport host : string) (i j k : nat)
  : string * string + error :=
  if 0 <=? strings.IndexByte (slice_from hostport j) "["
  then inr (AddrError "unexpected '[' in address" hostport)
  else if 0 <=? strings.IndexByte (slice_from hostport k) "]"
  then inr (AddrError "unexpected ']' in address" hostport)
  else inl (host, slice_from hostport (i + 1)).

(** [func SplitHostPort(hostport string) (host, port string, err error)]:
    the port starts after the last colon; a host in brackets must end
    just before that colon; a host without brackets has no colon. *)
Definition SplitHostPort (hostport : string) : string * string + error :=
  let i := strings.LastIndexByte hostport ":" in
  if i <? 0 then inr (AddrError missingPort hostport)
  else
    let i := Z.to_nat i in
    match hostport with
    | String "[" _ =>
        let end_ := strings.IndexByte hostport "]" in
        if end_ <? 0 then inr (AddrError "missing ']' in address" hostport)
        else
          let end_ := Z.to_nat end_ in
          if (end_ + 1 =? String.length hostport)%nat
          then inr (AddrError missingPort hostport)
          else if (end_ + 1 =? i)%nat
          then splitTail hostport (slice hostport 1 end_) i 1 (end_ + 1)
          else if String.eqb (slice hostport (end_ + 1) (end_ + 2)) ":"
          then inr (AddrError tooManyColons hostport)
          else inr (AddrError missingPort hostport)
    | _ =>
        let host := slice hostport 0 i in
        if 0 <=? strings.IndexByte host ":"
        then inr (AddrError tooManyColons hostport)
        else splitTail hostport host i 0 0
    end.

(** [type IP []byte]: here always the 16 bytes [ParseIP] returns. *)
Definition IP := list nat.

(** The fields of [s] between dots. *)
Fixpoint dotFields (cur s : string) : list string :=
  match s with
  | EmptyString => [cur]
  | String c rest =>
      if Ascii.eqb c "." then cur :: dotFields EmptyString rest
      else dotFields (cur +:+ String c EmptyString) rest
  end.

Fixpoint allDigits (s : string) : bool :=
  match s with
  | EmptyString => true
  | String c rest => textproto.is_digit c && allDigits rest
  end.

Fixpoint decimal (acc : nat) (s : string) : nat :=
  match s with
  | EmptyString => acc
  | String c rest => decimal (10 * acc + (nat_of_ascii c - 48)) rest
  end.

(** One octet of a dotted IPv4 literal: one to three decimal digits, no
    leading zero, at most 255. *)
Definition octet (f : string) : option nat :=
  match f with
  | EmptyString => None
  | String c rest =>
      if allDigits f
         && negb (Ascii.eqb c "0" && negb (String.eqb rest ""))
         && (String.length f <=? 3)%nat && (decimal 0 f <=? 255)%nat
      then Some (decimal 0 f) else None
  end.

(** [parseIPv4Fields]: exactly four octets. *)
Definition parseIPv4Fields (s : string) : option (list nat) :=
  match dotFields EmptyString s with
  | [a; b; c; d] =>
      match octet a, octet b, octet c, octet d with
      | Some a, Some b, Some c, Some d => Some [a; b; c; d]
      | _, _, _, _ => None
      end
  | _ => None
  end.

Definition v4InV6Prefix : list nat :=
  [0; 0; 0; 0; 0; 0; 0; 0; 0; 0; 255; 255]%nat.

(** The hexadecimal digits [s] starts with, at most four: their value,
    their number and the rest of [s]; [None] at a fifth digit. *)
Fixpoint hexGroup (s : string) (acc off : nat) : option (nat * nat * string) :=
  match s with
  | EmptyString => Some (acc, off, s)
  | String c rest =>
      if url.ishex c then
        if (3 <? off)%nat then None
        else hexGroup rest (16 * acc + url.unhex c) (S off)
      else Some (acc, off, s)
  end.

(** The loop of [parseIPv6] over the colon-separated groups: [s] is the
    text still to read, [ip] the bytes filled in so far and [ellipsis]
    the offset in [ip] of a double colon, if one was read.  The result
    is the state after the loop; [None] is a parse error. *)
Fixpoint v6groups (fuel : nat) (s : string) (ip : list nat)
  (ellipsis : option nat) : option (string * list nat * option nat) :=
  match fuel with
  | O => Some (s, ip, ellipsis)
  | S fuel =>
      if (16 <=? length ip)%nat then Some (s, ip, ellipsis)
      else
        match hexGroup s 0 0 with
        | None => None
        | Some (_, O, _) => None
        | Some (acc, _, String "." _) =>
            (* a trailing IPv4 address, read from the start of the group *)
            if (match ellipsis with None => true | Some _ => false end)
               && negb (length ip =? 12)%nat then None
            else if (16 <? length ip + 4)%nat then None
            else match parseIPv4Fields s with
                 | None => None
                 | Some v4 => Some (EmptyString, ip ++ v4, ellipsis)
                 end
        | Some (acc, _, rest) =>
            let ip := ip ++ [(acc / 256)%nat; (acc mod 256)%nat] in
            match rest with
            | EmptyString => Some (rest, ip, ellipsis)
            | String ":" EmptyString => None
            | String ":" (String ":" rest') =>
                match ellipsis with
                | Some _ => None
                | None =>
                    match rest' with
                    | EmptyString => Some (rest', ip, Some (length ip))
                    | _ => v6groups fuel rest' ip (Some (length ip))
                    end
                end
            | String ":" rest' => v6groups fuel rest' ip ellipsis
            | _ => None
            end
        end
  end.

(** [parseIPv6] for a literal without zone: an optional leading double
    colon, the groups, no text left over, and the double colon expanded
    to the zero bytes that are missing (at least one group of them). *)
Definition parseIPv6 (s : string) : option IP :=
  let '(s, ellipsis) :=
    match s with
    | String ":" (String ":" rest) => (rest, Some O)
    | _ => (s, None)
    end in
  match ellipsis, s with
  | Some _, EmptyString => Some (replicate 16 O)
  | _, _ =>
      match v6groups 9 s [] ellipsis with
      | None => None
      | Some (String _ _, _, _) => None
      | Some (EmptyString, ip, ellipsis) =>
          if (length ip <? 16)%nat then
            match ellipsis with
            | None => None
            | Some e => Some (take e ip ++ replicate (16 - length ip) O
                                ++ drop e ip)
            end
          else match ellipsis with
               | Some _ => None
               | None => Some ip
               end
      end
  end.

(** The first of the bytes [.], [:] and [%] in [s], which tells
    [netip.ParseAddr] what kind of literal it reads. *)
Fixpoint firstMark (s : string) : option ascii :=
  match s with
  | EmptyString => None
  | String c rest =>
      if Ascii.eqb c "." || Ascii.eqb c ":" || Ascii.eqb c "%" then Some c
      else firstMark rest
  end.

(** [func ParseIP(s string) IP]: the 16-byte form of an IPv4 dotted
    decimal or IPv6 literal, nil for anything else; a literal with a
    zone ([%]) is not accepted. *)
Definition ParseIP (s : string) : option IP :=
  if strings.Contains s "%" then None
  else
    match firstMark s with
    | Some "."%char =>
        match parseIPv4Fields s with
        | Some v4 => Some (v4InV6Prefix ++ v4)
        | None => None
        end
    | Some ":"%char => parseIPv6 s
    | _ => None
    end.

(** Decimal digits of a number below 1000, without leading zeros. *)
Definition digit (n : nat) : ascii := ascii_of_nat (48 + n).
Definition itoa (n : nat) : string :=
  (if (100 <=? n)%nat then String (digit (n / 100)) EmptyString else EmptyString)
  +:+ (if (10 <=? n)%nat then String (digit (n / 10 mod 10)) EmptyString
       else EmptyString)
  +:+ String (digit (n mod 10)) EmptyString.

(** Hexadecimal digits of a number below 65536, without leading zeros. *)
Definition hex16 (n : nat) : string :=
  (if (4096 <=? n)%nat then String (strconv.lowerhex (n / 4096)) EmptyString
   else EmptyString)
  +:+ (if (256 <=? n)%nat then String (strconv.lowerhex (n / 256 mod 16)) EmptyString
       else EmptyString)
  +:+ (if (16 <=? n)%nat then String (strconv.lowerhex (n / 16 mod 16)) EmptyString
       else EmptyString)
  +:+ String (strconv.lowerhex (n mod 16)) EmptyString.

(** The eight 16-bit groups of a 16-byte address. *)
Fixpoint groups (ip : list nat) : list nat :=
  match ip with
  | hi :: lo :: rest => (256 * hi + lo)%nat :: groups rest
  | _ => []
  end.

(** Length of the run of zero groups at the head of [g]. *)
Fixpoint zeroRun (g : list nat) : nat :=
  match g with
  | O :: rest => S (zeroRun rest)
  | _ => O
  end.

(** The leftmost longest run of two or more zero groups in [g], whose
    first group has index [i]: its start and its length. *)
Fixpoint longestZeroRun (g : list nat) (i : nat) (best : nat * nat)
  : nat * nat :=
  match g with
  | [] => best
  | _ :: rest =>
      let l := zeroRun g in
      longestZeroRun rest (S i)
        (if (2 <=? l)%nat && (snd best <? l)%nat then (i, l) else best)
  end.

(** The groups from index [i] on, written in hexadecimal with colons
    between them and a double colon for the run [zs, zs + zl). *)
Fixpoint writeGroups (g : list nat) (i zs zl : nat) (skip : nat)
  (colon : bool) : string :=
  match g with
  | [] => EmptyString
  | x :: rest =>
      match skip with
      | S skip => writeGroups rest (S i) zs zl skip false
      | O =>
          if (0 <? zl)%nat && (i =? zs)%nat
          then "::" +:+ writeGroups rest (S i) zs zl (zl - 1) false
          else (if colon then ":" else EmptyString) +:+ hex16 x
               +:+ writeGroups rest (S i) zs zl O true
      end
  end.

(** [func (ip IP) String() string] for a 16-byte address: dotted
    decimal for an IPv4-mapped address, else the IPv6 text with the
    longest run of zero groups as a double colon. *)
Definition IP_String (ip : IP) : string :=
  match ip with
  | [] => "<nil>"
  | _ =>
      if bool_decide (take 12 ip = v4InV6Prefix)
      then match drop 12 ip with
           | [a; b; c; d] =>
               itoa a +:+ "." +:+ itoa b +:+ "." +:+ itoa c +:+ "." +:+ itoa d
           | _ => "?"
           end
      else let g := groups ip in
           let '(zs, zl) := longestZeroRun g 0 (O, O) in
           writeGroups g 0 zs zl 0 false
  end.

End net.

(* ================================================================== *)
(** * Package [os]: the environment *)

Module os.

Abbreviation Environ := (gmap string string).

(** [os.Getenv(key)]: the empty string when the variable is not set. *)
Definition Getenv (env : Environ) (key : string) : string :=
  default "" (env !! key).

End os.

(* ================================================================== *)
(** * Package [regexp] *)

Module regexp.

(** [type Regexp]: a compiled pattern, as the two methods this code
    calls.  [FindStringSubmatch s] is nil ([None]) when the pattern
    matches nowhere in [s]; otherwise it holds the text of the leftmost
    match and of each of its parenthesised groups.  [SubexpNames] holds
    the names of the groups, its first element (for the whole match)
    and the name of an unnamed group being empty. *)
Record Regexp : Type := mkRegexp {
  FindStringSubmatch : string -> option (list string);
  SubexpNames : list string
}.

(** The library's guarantee on the two results: a match has one element
    for each name. *)
Definition WellFormed (re : Regexp) : Prop :=
  forall s m, FindStringSubmatch re s = Some m ->
              length m = length (SubexpNames re).

(** ** A matcher for a fragment of the pattern syntax

    Patterns as syntax trees (package [regexp/syntax]), for the
    operators below, matched by bytes.  The repetition is that of a
    class of bytes ([[0-9]*], and [a*] as [[a-a]*]): every iteration
    takes one byte, so that the order in which the library tries the
    ways of matching is the order of a backtracking search, the same
    for each of its engines.  (A repetition whose body can match the
    empty string is compiled by the library in a way of its own and is
    not in the fragment.) *)
Inductive Syntax : Type :=
| EmptyMatch                                (* matches the empty string *)
| Literal (c : ascii)                       (* one byte *)
| CharClass (ranges : list (ascii * ascii)) (* [a-z0-9] *)
| Concat (r1 r2 : Syntax)                   (* r1r2 *)
| Alternate (r1 r2 : Syntax)                (* r1|r2, r1 preferred *)
| Star (ranges : list (ascii * ascii))      (* [a-z0-9]*, greedy *)
| Capture (name : string) (r : Syntax)      (* (r), (?P<name>r) *)
| BeginText                                 (* ^ *)
| EndText.                                  (* $ *)

(** The trees the parser builds for patterns written in ASCII: literals
    and bounds of ranges are bytes below 0x80, on which matching by
    bytes and matching by UTF-8 runes agree, and no range is empty. *)
Definition asciiRange (range : ascii * ascii) : bool :=
  (nat_of_ascii (fst range) <=? nat_of_ascii (snd range))%nat
  && (nat_of_ascii (snd range) <? 128)%nat.

Fixpoint parsed (r : Syntax) : bool :=
  match r with
  | Literal c => (nat_of_ascii c <? 128)%nat
  | CharClass ranges | Star ranges => forallb asciiRange ranges
  | Concat r1 r2 | Alternate r1 r2 => parsed r1 && parsed r2
  | Capture _ r1 => parsed r1
  | EmptyMatch | BeginText | EndText => true
  end.

Definition inClass (ranges : list (ascii * ascii)) (c : ascii) : bool :=
  existsb (fun '(lo, hi) => textproto.in_range lo hi c) ranges.

(** Number of parenthesised groups. *)
Fixpoint NumSubexp (r : Syntax) : nat :=
  match r with
  | Concat r1 r2 | Alternate r1 r2 => (NumSubexp r1 + NumSubexp r2)%nat
  | Capture _ r1 => S (NumSubexp r1)
  | _ => O
  end.

(** Names of the groups, in the order of their opening parentheses. *)
Fixpoint groupNames (r : Syntax) : list string :=
  match r with
  | Concat r1 r2 | Alternate r1 r2 => groupNames r1 ++ groupNames r2
  | Capture name r1 => name :: groupNames r1
  | _ => []
  end.

(** The text consumed between [s] and its suffix [s']. *)
Definition consumed (s s' : list ascii) : string :=
  string_of_list_ascii (take (length s - length s') s).

(** A continuation of the matcher: the text left and the submatches so
    far, to the submatches of the whole match, or [None] to backtrack. *)
Definition Cont : Type := list ascii -> list string -> option (list string).

(** The repetition of a class: one more byte of the class is taken
    before the rest of the pattern is tried. *)
Fixpoint starLoop (ranges : list (ascii * ascii)) (k : Cont)
  (s : list ascii) (caps : list string) : option (list string) :=
  match s with
  | d :: s' =>
      if inClass ranges d then
        match starLoop ranges k s' caps with
        | Some m => Some m
        | None => k s caps
        end
      else k s caps
  | [] => k s caps
  end.

Section Matcher.
(** Length of the whole text searched. *)
Variable whole : nat.

(** A backtracking matcher in continuation-passing style: [matchHere r
    base s caps k] matches [r] at the head of [s], the first group of
    [r] having index [base], and passes the rest of [s] and the
    submatches to [k]; when [k] fails the next way of matching [r] is
    tried, an alternative in the order written and a repetition longest
    first. *)
Fixpoint matchHere (r : Syntax) (base : nat) (s : list ascii)
  (caps : list string) (k : Cont) {struct r} : option (list string) :=
  match r with
  | EmptyMatch => k s caps
  | Literal c =>
      match s with
      | d :: s' => if Ascii.eqb c d then k s' caps else None
      | [] => None
      end
  | CharClass ranges =>
      match s with
      | d :: s' => if inClass ranges d then k s' caps else None
      | [] => None
      end
  | Concat r1 r2 =>
      matchHere r1 base s caps
        (fun s' caps' => matchHere r2 (base + NumSubexp r1) s' caps' k)
  | Alternate r1 r2 =>
      match matchHere r1 base s caps k with
      | Some m => Some m
      | None => matchHere r2 (base + NumSubexp r1) s caps k
      end
  | Star ranges => starLoop ranges k s caps
  | Capture _ r1 =>
      matchHere r1 (S base) s caps
        (fun s' caps' => k s' (<[base := consumed s s']> caps'))
  | BeginText => if (length s =? whole)%nat then k s caps else None
  | EndText => match s with [] => k s caps | _ :: _ => None end
  end.

(** The leftmost match: [r] is tried at every offset of the text, from
    the first on. *)
Fixpoint findFrom (r : Syntax) (s : list ascii) : option (list string) :=
  match matchHere r 1 s (replicate (S (NumSubexp r)) EmptyString)
          (fun s' caps => Some (<[O := consumed s s']> caps)) with
  | Some m => Some m
  | None => match s with
            | [] => None
            | _ :: s' => findFrom r s'
            end
  end.
End Matcher.

(** [regexp.MustCompile], from the syntax tree of the pattern. *)
Definition MustCompile (r : Syntax) : Regexp :=
  {| FindStringSubmatch := fun s =>
       let l := list_ascii_of_string s in findFrom (length l) r l;
     SubexpNames := EmptyString :: groupNames r |}.

(** What a pattern matches: [Matches whole r s rest] when [r] matches
    the text [s] that [rest] follows, up to the end of a text of
    [whole] bytes. *)
Inductive Matches (whole : nat) : Syntax -> list ascii -> list ascii -> Prop :=
| MEmpty rest : Matches whole EmptyMatch [] rest
| MLiteral c rest : Matches whole (Literal c) [c] rest
| MClass ranges c rest :
    inClass ranges c = true -> Matches whole (CharClass ranges) [c] rest
| MConcat r1 r2 s1 s2 rest :
    Matches whole r1 s1 (s2 ++ rest) -> Matches whole r2 s2 rest ->
    Matches whole (Concat r1 r2) (s1 ++ s2) rest
| MAltL r1 r2 s rest :
    Matches whole r1 s rest -> Matches whole (Alternate r1 r2) s rest
| MAltR r1 r2 s rest :
    Matches whole r2 s rest -> Matches whole (Alternate r1 r2) s rest
| MStarNil ranges rest : Matches whole (Star ranges) [] rest
| MStarCons ranges c s rest :
    inClass ranges c = true -> Matches whole (Star ranges) s rest ->
    Matches whole (Star ranges) (c :: s) rest
| MCapture name r s rest :
    Matches whole r s rest -> Matches whole (Capture name r) s rest
| MBeginText rest : length rest = whole -> Matches whole BeginText [] rest
| MEndText : Matches whole EndText [] [].

(** The pattern matches the whole of [text]. *)
Definition MatchesAll (r : Syntax) (text : string) : Prop :=
  let l := list_ascii_of_string text in Matches (length l) r l [].

(** The pattern matches some part of [text]. *)
Definition MatchesPart (r : Syntax) (text : string) : Prop :=
  let l := list_ascii_of_string text in
  exists pre mid suf,
    l = pre ++ mid ++ suf /\ Matches (length l) r mid suf.

(** The pattern [^r$]. *)
Definition anchored (r : Syntax) : Syntax :=
  Concat BeginText (Concat r EndText).

(** The literal text [s] as a pattern. *)
Fixpoint literal (s : string) : Syntax :=
  match s with
  | EmptyString => EmptyMatch
  | String c s' => Concat (Literal c) (literal s')
  end.

End regexp.

(* ================================================================== *)
(** * Package [server/spec] *)

Module spec.

(** Modelled from the spec: the struct [Spec] of package [server/spec],
    whose declaration is not among the sources; the fields are those the
    code reads ([BindTarget], [PathPrefix], [Commit]), each a string, and
    the specification calls them the bind address, the path-prefix and
    the build identifier of the shared server configuration. *)
Record Spec : Type := mkSpec {
  BindTarget : string;
  PathPrefix : string;
  Commit : string
}.

End spec.

(* ================================================================== *)
(** * Package [exchange] *)

Module exchange.

(** [type Exchange struct].  [ResponseWriter] and [CappedBody] are
    interfaces over mutable objects and [Fields] is a map: a method with
    receiver [ex Exchange] copies the struct and shares all three with
    its caller, so a method that changes one of them returns the
    Exchange with that field replaced.  The body of the request is read
    through [CappedBody] only, whose field [R] carries the state of the
    stream. *)
Record Exchange : Type := mkExchange {
  Request : http.Request;
  ResponseWriter : http.ResponseWriter;
  Fields : gmap string string;
  CappedBody : io.LimitedReader;
  URL : url.URL;
  ServerSpec : spec.Spec
}.

Definition set_ResponseWriter (ex : Exchange) (w : http.ResponseWriter)
  : Exchange :=
  {| Request := Request ex; ResponseWriter := w; Fields := Fields ex;
     CappedBody := CappedBody ex; URL := URL ex;
     ServerSpec := ServerSpec ex |}.

Definition set_Fields (ex : Exchange) (f : gmap string string) : Exchange :=
  {| Request := Request ex; ResponseWriter := ResponseWriter ex; Fields := f;
     CappedBody := CappedBody ex; URL := URL ex;
     ServerSpec := ServerSpec ex |}.

Definition set_CappedBody (ex : Exchange) (r : io.LimitedReader) : Exchange :=
  {| Request := Request ex; ResponseWriter := ResponseWriter ex;
     Fields := Fields ex; CappedBody := r; URL := URL ex;
     ServerSpec := ServerSpec ex |}.

Definition set_URL (ex : Exchange) (u : url.URL) : Exchange :=
  {| Request := Request ex; ResponseWriter := ResponseWriter ex;
     Fields := Fields ex; CappedBody := CappedBody ex; URL := u;
     ServerSpec := ServerSpec ex |}.

Definition set_Host (u : url.URL) (host : string) : url.URL :=
  {| url.Scheme := url.Scheme u; url.Opaque := url.Opaque u;
     url.User := url.User u; url.Host := host; url.Path := url.Path u;
     url.RawPath := url.RawPath u; url.ForceQuery := url.ForceQuery u;
     url.RawQuery := url.RawQuery u; url.Fragment := url.Fragment u;
     url.RawFragment := url.RawFragment u |}.

(** [ex.ResponseWriter.Header().Set(key, value)] *)
Definition setHeader (ex : Exchange) (key value : string) : Exchange :=
  set_ResponseWriter ex (http.Header_Set (ResponseWriter ex) key value).

(** [func (ex Exchange) HeaderValueLast(name string) string {
       if values := ex.Request.Header[name]; values != nil && len(values) > 0 {
         return values[len(values)-1] }
       return "" }] *)
Definition HeaderValueLast (ex : Exchange) (name : string) : string :=
  default "" (last (textproto.index (http.Header (Request ex)) name)).

(** [func New(w http.ResponseWriter, req *http.Request, serverSpec spec.Spec) *Exchange] *)
Definition New (w : http.ResponseWriter) (req : http.Request)
  (serverSpec : spec.Spec) : Exchange :=
  let ex :=
    {| Request := req;
       ResponseWriter := w;
       Fields := ∅;
       CappedBody := io.LimitReader (http.Body req) 10000;
       URL :=
         {| url.Scheme := url.Scheme (http.URL req);
            url.Opaque := url.Opaque (http.URL req);
            url.User := url.User (http.URL req);
            url.Host := url.Host (http.URL req);
            url.Path := strings.TrimPrefix (url.Path (http.URL req))
                          (spec.PathPrefix serverSpec);
            url.RawPath := url.RawPath (http.URL req);
            url.ForceQuery := url.ForceQuery (http.URL req);
            url.RawQuery := url.RawQuery (http.URL req);
            url.Fragment := url.Fragment (http.URL req);
            url.RawFragment := url.RawFragment (http.URL req) |};
       ServerSpec := serverSpec |} in
  let ex :=
    if String.eqb (url.Host (URL ex)) "" && negb (String.eqb (http.Host req) "")
    then set_URL ex (set_Host (URL ex) (http.Host req))
    else ex in
  let originHeader := HeaderValueLast ex "Origin" in
  let ex :=
    if negb (String.eqb originHeader "") then
      let ex := setHeader ex "Access-Control-Allow-Origin" originHeader in
      setHeader ex "Access-Control-Allow-Credentials" "true"
    else ex in
  let accessControlHeaders :=
    textproto.Get (http.Header (Request ex)) "Access-Control-Request-Headers" in
  let ex :=
    if negb (String.eqb accessControlHeaders "")
    then setHeader ex "Access-Control-Allow-Headers" accessControlHeaders
    else ex in
  let accessControlMethods :=
    textproto.Get (http.Header (Request ex)) "Access-Control-Request-Method" in
  let ex :=
    if negb (String.eqb accessControlMethods "")
    then setHeader ex "Access-Control-Allow-Methods" accessControlMethods
    else ex in
  setHeader ex "X-Powered-By" ("httpbun/" +:+ spec.Commit serverSpec).

(** The loop of [MatchAndLoadFields] from index [i] on:
    [for i, name := range names {
       if name != "" { ex.Fields[name] = match[i] } }].
    [None] is the run-time panic of an index out of range. *)
Fixpoint loadFields (names : list string) (i : nat) (match_ : list string)
  (fields : gmap string string) : option (gmap string string) :=
  match names with
  | [] => Some fields
  | name :: names =>
      if negb (String.eqb name "") then
        match match_ !! i with
        | Some v => loadFields names (S i) match_ (<[name := v]> fields)
        | None => None
        end
      else loadFields names (S i) match_ fields
  end.

(** [func (ex Exchange) MatchAndLoadFields(routePat regexp.Regexp) bool]:
    the Exchange with the fields loaded, and the result. *)
Definition MatchAndLoadFields (ex : Exchange) (routePat : regexp.Regexp)
  : option (Exchange * bool) :=
  match regexp.FindStringSubmatch routePat (url.Path (URL ex)) with
  | Some match_ =>
      match loadFields (regexp.SubexpNames routePat) 0 match_ (Fields ex) with
      | Some fields => Some (set_Fields ex fields, true)
      | None => None
      end
  | None => Some (ex, false)
  end.

(** [func (ex Exchange) Field(name string) string { return ex.Fields[name] }] *)
Definition Field (ex : Exchange) (name : string) : string :=
  default "" (Fields ex !! name).

Definition redirectFormat : string :=
  "<!doctype html>
<title>Redirecting...</title>
<h1>Redirecting...</h1>
<p>You should be redirected automatically to target URL: <a href=%q>%s</a>.  If not click the link.</p>
".

(** [func (ex Exchange) Redirect(target string)] *)
Definition Redirect (quoteNonASCII : string -> string) (ex : Exchange)
  (target : string) (out : list output) : Exchange * list output :=
  let target :=
    if strings.HasPrefix target "/"
    then spec.PathPrefix (ServerSpec ex) +:+ target
    else target in
  let ex := setHeader ex "Location" target in
  let ex := set_ResponseWriter ex
              (http.WriteHeader (ResponseWriter ex) http.StatusFound) in
  let '(w, err) :=
    http.Write (ResponseWriter ex)
      (fmt.Sprintf quoteNonASCII redirectFormat [target; target]) in
  (set_ResponseWriter ex w,
   match err with
   | Some err =>
       out ++ [log_Printf "Error writing redirect HTML to HTTP response %v"
                 [VError err]]
   | None => out
   end).

(** [func singleParamValue(args map[string][]string, name string) (string, error)] *)
Definition singleParamValue (args : gmap string (list string)) (name : string)
  : string * option error :=
  match default [] (args !! name) with
  | [] => ("", Some (Errorf "missing required param %q" [name]))
  | [v] => (v, None)
  | _ :: _ :: _ =>
      ("", Some (Errorf "too many values for param %q, expected only one"
                   [name]))
  end.

(** [func (ex Exchange) QueryParamSingle(name string) (string, error) {
       return singleParamValue(ex.Request.URL.Query(), name) }] *)
Definition QueryParamSingle (ex : Exchange) (name : string)
  : string * option error :=
  singleParamValue (url.Query (http.URL (Request ex))) name.

(** [func (ex Exchange) FormParamSingle(name string) (string, error) {
       return singleParamValue(ex.Request.Form, name) }] *)
Definition FormParamSingle (ex : Exchange) (name : string)
  : string * option error :=
  singleParamValue (http.Form (Request ex)) name.

(** [func (ex Exchange) FindScheme() string] *)
Definition FindScheme (env : os.Environ) (ex : Exchange) : string :=
  let forwardedProto := HeaderValueLast ex "X-Httpbun-Forwarded-Proto" in
  if negb (String.eqb forwardedProto "") then forwardedProto
  else if negb (String.eqb (os.Getenv env "HTTPBUN_SSL_CERT") "")
          || String.eqb (HeaderValueLast ex "X-Httpbun-Forwarded-Proto") "https"
  then "https"
  else "http".

(** [func (ex Exchange) FindIncomingIPAddress() string]: the address and
    what the call logs. *)
Definition FindIncomingIPAddress (ex : Exchange) (out : list output)
  : string * list output :=
  let ipStr := HeaderValueLast ex "X-Httpbun-Forwarded-For" in
  if String.eqb ipStr "" then
    match net.SplitHostPort (http.RemoteAddr (Request ex)) with
    | inr err =>
        (ipStr,
         out ++ [log_Printf "Unable to read IP from address %q."
                   [VString (http.RemoteAddr (Request ex))]])
    | inl (ip, _) =>
        match net.ParseIP ip with
        | Some userIP => (net.IP_String userIP, out)
        | None => (ipStr, out)
        end
    end
  else (ipStr, out).

(** [func (ex Exchange) BodyBytes() []byte]: the bytes (nil after an
    error), the Exchange with the reader advanced, and what is printed.
    [None] when [fuel] iterations do not end [io.ReadAll]. *)
Definition BodyBytes (grow : nat -> nat) (fuel : nat) (ex : Exchange)
  (out : list output) : option (list byte * Exchange * list output) :=
  match io.ReadAll grow fuel (CappedBody ex) with
  | None => None
  | Some (bodyBytes, Some err, r) =>
      Some ([], set_CappedBody ex r,
            out ++ [fmt_Println [VString "Error reading request payload";
                                 VError err]])
  | Some (bodyBytes, None, r) => Some (bodyBytes, set_CappedBody ex r, out)
  end.

(** [func (ex Exchange) BodyString() string { return string(ex.BodyBytes()) }] *)
Definition BodyString (grow : nat -> nat) (fuel : nat) (ex : Exchange)
  (out : list output) : option (string * Exchange * list output) :=
  match BodyBytes grow fuel ex out with
  | None => None
  | Some (b, ex, out) => Some (string_of_list_byte b, ex, out)
  end.

(** [type HandlerFn func(ex *Exchange)]: a handler may change the
    Exchange it is given and print. *)
Definition HandlerFn : Type :=
  Exchange -> list output -> Exchange * list output.

(** [func (ex Exchange) QueryParamInt(name string, value int) (int, error)] *)
Definition QueryParamInt (ex : Exchange) (name : string) (value : Z)
  : Z * option error :=
  let args := url.Query (http.URL (Request ex)) in
  match url.index args name with
  | first :: _ =>
      match strconv.Atoi first with
      | Some value => (value, None)
      | None => (0, Some (Errorf "%s must be an integer" [name]))
      end
  | [] => (value, None)
  end.

(** A value of a [map[string]any] built by [ExposableHeadersMap]: a
    string or a slice of strings. *)
Inductive any : Type :=
| AnyString (s : string)
| AnyStrings (l : list string).

(** The body of the loop of [ExposableHeadersMap] for one header, [acc]
    being the map built so far:
    [if !strings.HasPrefix(name, "X-Httpbun-") {
       if len(values) > 1 { headers[name] = values }
       else { headers[name] = values[0] } }].
    [None] is the run-time panic of [values[0]] on an empty slice. *)
Definition exposeHeader (name : string) (values : list string)
  (acc : option (gmap string any)) : option (gmap string any) :=
  match acc with
  | None => None
  | Some headers =>
      if negb (strings.HasPrefix name "X-Httpbun-") then
        if (1 <? length values)%nat
        then Some (<[name := AnyStrings values]> headers)
        else match values with
             | v :: _ => Some (<[name := AnyString v]> headers)
             | [] => None
             end
      else Some headers
  end.

(** [func (ex Exchange) ExposableHeadersMap() map[string]any]: the loop
    over the request headers, in the order the map yields them. *)
Definition ExposableHeadersMap (ex : Exchange) : option (gmap string any) :=
  map_fold exposeHeader (Some ∅) (http.Header (Request ex)).

(** The line feed, [\n] in the Go source. *)
Definition newline : string := String (ascii_of_nat 10) EmptyString.

(** [func (ex Exchange) Write(content string)]: [fmt.Fprint] passes the
    one string operand to [Write] as it is; an error is logged. *)
Definition Write (ex : Exchange) (content : string) (out : list output)
  : Exchange * list output :=
  let '(w, err) := http.Write (ResponseWriter ex) content in
  (set_ResponseWriter ex w,
   match err with
   | Some err =>
       out ++ [log_Printf ("Error writing to exchange response: %v" +:+ newline)
                 [VError err]]
   | None => out
   end).

(** [func (ex Exchange) WriteLn(content string) {
       ex.Write(content); ex.Write("\n") }] *)
Definition WriteLn (ex : Exchange) (content : string) (out : list output)
  : Exchange * list output :=
  let '(ex, out) := Write ex content out in
  Write ex newline out.

(** [func (ex Exchange) WriteBytes(content []byte)] *)
Definition WriteBytes (ex : Exchange) (content : list byte)
  (out : list output) : Exchange * list output :=
  let '(w, err) :=
    http.Write (ResponseWriter ex) (string_of_list_byte content) in
  (set_ResponseWriter ex w,
   match err with
   | Some err =>
       out ++ [log_Printf
                 ("Error writing bytes to exchange response: %v" +:+ newline)
                 [VError err]]
   | None => out
   end).

Section Formatted.
(** [fmt.Sprintf] for operands of any type: the type of the operands
    and the formatting, taken as given by package [fmt]. *)
Variable operand : Type.
Variable Sprintf : string -> list operand -> string.

(** [func (ex Exchange) WriteF(content string, vars ...any) {
       ex.Write(fmt.Sprintf(content, vars...)) }] *)
Definition WriteF (ex : Exchange) (content : string) (vars : list operand)
  (out : list output) : Exchange * list output :=
  Write ex (Sprintf content vars) out.

(** [func (ex Exchange) RespondBadRequest(message string, vars ...any) {
       ex.ResponseWriter.WriteHeader(http.StatusBadRequest)
       ex.WriteF(message, vars...)
       ex.WriteBytes([]byte("\n")) }] *)
Definition RespondBadRequest (ex : Exchange) (message : string)
  (vars : list operand) (out : list output) : Exchange * list output :=
  let ex := set_ResponseWriter ex
              (http.WriteHeader (ResponseWriter ex) http.StatusBadRequest) in
  let '(ex, out) := WriteF ex message vars out in
  WriteBytes ex [Byte.x0a] out.
End Formatted.

Section StatusText.
(** [http.StatusText]: the reason phrase of a status code, empty for a
    code the table of package [net/http] does not hold. *)
Variable StatusText : Z -> string.

(** [func (ex Exchange) RespondWithStatus(errorStatus int) {
       ex.ResponseWriter.WriteHeader(errorStatus)
       ex.WriteLn(http.StatusText(errorStatus)) }] *)
Definition RespondWithStatus (ex : Exchange) (errorStatus : Z)
  (out : list output) : Exchange * list output :=
  let ex := set_ResponseWriter ex
              (http.WriteHeader (ResponseWriter ex) errorStatus) in
  WriteLn ex (StatusText errorStatus) out.
End StatusText.

End exchange.

(* ================================================================== *)
(** * Packages [routes] and [server] *)

Module routes.

(** Modelled from the spec: the struct [Route] of package [routes],
    whose declaration is not among the sources; the dispatcher reads
    its fields [Pat] (a [regexp.Regexp]) and [Fn] (the handler), and the
    specification calls a route a pairing of a path-matching pattern and
    a handler function. *)
Record Route : Type := mkRoute {
  Pat : regexp.Regexp;
  Fn : exchange.HandlerFn
}.

End routes.

Module server.

(** [type Server struct]: the configuration and the route table (the
    embedded [*http.Server] and the channel [closeCh] belong to the
    life cycle of the listener). *)
Record Server : Type := mkServer {
  spec_ : spec.Spec;
  routes_ : list routes.Route
}.

(** The loop over the route table in [ServeHTTP]:
    [for _, route := range s.routes {
       if ex.MatchAndLoadFields(route.Pat) { route.Fn(ex); return } }]
    followed by the two statements after it.  [None] is a panic. *)
Fixpoint serveRoutes (rs : list routes.Route) (ex : exchange.Exchange)
  (incomingIP : string) (out : list output)
  : option (http.ResponseWriter * list output) :=
  match rs with
  | [] =>
      let req := exchange.Request ex in
      let out := out ++ [log_Printf "NotFound ip=%s %s %s"
                           [VString incomingIP; VString (http.Method req);
                            VURL (http.URL req)]] in
      Some (http.NotFound (exchange.ResponseWriter ex) req, out)
  | route :: rs =>
      match exchange.MatchAndLoadFields ex (routes.Pat route) with
      | None => None
      | Some (ex, true) =>
          let '(ex, out) := routes.Fn route ex out in
          Some (exchange.ResponseWriter ex, out)
      | Some (ex, false) => serveRoutes rs ex incomingIP out
      end
  end.

(** [func (s Server) ServeHTTP(w http.ResponseWriter, req *http.Request)]:
    the response writer and the printed output when it returns. *)
Definition ServeHTTP (s : Server) (w : http.ResponseWriter)
  (req : http.Request) (out : list output)
  : option (http.ResponseWriter * list output) :=
  if negb (strings.HasPrefix (url.Path (http.URL req))
             (spec.PathPrefix (spec_ s)))
  then Some (http.NotFound w req, out)
  else
    let ex := exchange.New w req (spec_ s) in
    let '(incomingIP, out) := exchange.FindIncomingIPAddress ex out in
    let out := out ++ [log_Printf "From ip=%s %s %s%s"
                         [VString incomingIP; VString (http.Method req);
                          VString (http.Host req); VURL (http.URL req)]] in
    serveRoutes (routes_ s) ex incomingIP out.

End server.

(* ================================================================== *)
(** * Sample requests *)

Module sample.

(** The URL of an origin-form request target: a path and a query. *)
Definition target (path rawQuery : string) : url.URL :=
  {| url.Scheme := ""; url.Opaque := ""; url.User := None; url.Host := "";
     url.Path := path; url.RawPath := ""; url.ForceQuery := false;
     url.RawQuery := rawQuery; url.Fragment := ""; url.RawFragment := "" |}.

(** A GET request without body from the peer [remoteAddr]. *)
Definition get (path rawQuery : string) (header : list (string * list string))
  (remoteAddr : string) : http.Request :=
  {| http.Method := "GET"; http.URL := target path rawQuery;
     http.Header := list_to_map header;
     http.Body := {| io.pending := []; io.final := EOF |};
     http.Host := "example.org"; http.Form := ∅;
     http.RemoteAddr := remoteAddr |}.

(** A response writer on which nothing was set or written. *)
Definition writer : http.ResponseWriter :=
  {| http.Headers := ∅; http.calls := []; http.broken := None |}.

(** The configuration of a server mounted under [prefix]. *)
Definition config (prefix : string) : spec.Spec :=
  {| spec.BindTarget := "localhost:3090"; spec.PathPrefix := prefix;
     spec.Commit := "abc123" |}.

(** The pattern [^/items/(?P<id>[0-9]+)$], the repetition [x+] written
    as [xx*]. *)
Definition items : regexp.Syntax :=
  let digit := regexp.CharClass [("0", "9")]%char in
  regexp.anchored
    (regexp.Concat (regexp.literal "/items/")
       (regexp.Capture "id"
          (regexp.Concat digit (regexp.Star [("0", "9")]%char)))).

(** A handler that writes [text] as the body of the response. *)
Definition say (text : string) : exchange.HandlerFn :=
  fun ex out =>
    (exchange.set_ResponseWriter ex
       (fst (http.Write (exchange.ResponseWriter ex) text)), out).

(** A handler that writes the field [name] as the body of the response. *)
Definition sayField (name : string) : exchange.HandlerFn :=
  fun ex out => say (exchange.Field ex name) ex out.

(** A server with the one route [^/items/(?P<id>[0-9]+)$]. *)
Definition itemServer : server.Server :=
  {| server.spec_ := config "";
     server.routes_ :=
       [ {| routes.Pat := regexp.MustCompile items;
            routes.Fn := sayField "id" |} ] |}.

(** A server under the prefix [/api] with two routes, [^/a] and
    [^/a/b$] in this order, which both match the path [/a/b]. *)
Definition twoRoutes : server.Server :=
  {| server.spec_ := config "/api";
     server.routes_ :=
       [ {| routes.Pat :=
              regexp.MustCompile
                (regexp.Concat regexp.BeginText (regexp.literal "/a"));
            routes.Fn := say "first" |};
         {| routes.Pat :=
              regexp.MustCompile (regexp.anchored (regexp.literal "/a/b"));
            routes.Fn := say "second" |} ] |}.

End sample.

(* ================================================================== *)
(** * Notions used in the properties *)

(** [New] in stages: the Exchange as first built, the host taken from
    the request, the CORS pair, and a request header echoed into a
    response header. *)
Definition New_base (w : http.ResponseWriter) (req : http.Request)
  (serverSpec : spec.Spec) : exchange.Exchange :=
  {| exchange.Request := req;
     exchange.ResponseWriter := w;
     exchange.Fields := ∅;
     exchange.CappedBody := io.LimitReader (http.Body req) 10000;
     exchange.URL :=
       {| url.Scheme := url.Scheme (http.URL req);
          url.Opaque := url.Opaque (http.URL req);
          url.User := url.User (http.URL req);
          url.Host := url.Host (http.URL req);
          url.Path := strings.TrimPrefix (url.Path (http.URL req))
                        (spec.PathPrefix serverSpec);
          url.RawPath := url.RawPath (http.URL req);
          url.ForceQuery := url.ForceQuery (http.URL req);
          url.RawQuery := url.RawQuery (http.URL req);
          url.Fragment := url.Fragment (http.URL req);
          url.RawFragment := url.RawFragment (http.URL req) |};
     exchange.ServerSpec := serverSpec |}.

Definition New_host (ex : exchange.Exchange) (req : http.Request)
  : exchange.Exchange :=
  if String.eqb (url.Host (exchange.URL ex)) ""
     && negb (String.eqb (http.Host req) "")
  then exchange.set_URL ex (exchange.set_Host (exchange.URL ex) (http.Host req))
  else ex.

Definition New_origin (ex : exchange.Exchange) : exchange.Exchange :=
  let originHeader := exchange.HeaderValueLast ex "Origin" in
  if negb (String.eqb originHeader "") then
    exchange.setHeader
      (exchange.setHeader ex "Access-Control-Allow-Origin" originHeader)
      "Access-Control-Allow-Credentials" "true"
  else ex.

Definition New_echo (from to : string) (ex : exchange.Exchange)
  : exchange.Exchange :=
  let v := textproto.Get (http.Header (exchange.Request ex)) from in
  if negb (String.eqb v "") then exchange.setHeader ex to v else ex.

(** What the stages after the first leave alone: everything but the
    response headers. *)
Definition same_but_headers (a b : exchange.Exchange) : Prop :=
  exchange.Request a = exchange.Request b
  /\ exchange.Fields a = exchange.Fields b
  /\ exchange.CappedBody a = exchange.CappedBody b
  /\ exchange.URL a = exchange.URL b
  /\ exchange.ServerSpec a = exchange.ServerSpec b
  /\ http.calls (exchange.ResponseWriter a)
     = http.calls (exchange.ResponseWriter b)
  /\ http.broken (exchange.ResponseWriter a)
     = http.broken (exchange.ResponseWriter b).

(** The result of a match comes from the continuation, applied to what
    a match of the pattern leaves. *)
Definition SoundStep (whole : nat) (r : regexp.Syntax)
  (step : list ascii -> list string -> regexp.Cont -> option (list string))
  : Prop :=
  forall s caps k res,
    step s caps k = Some res ->
    exists s1 s2 caps',
      s = s1 ++ s2 /\ regexp.Matches whole r s1 s2
      /\ length caps' = length caps /\ k s2 caps' = Some res.

(** A match of the pattern after which the continuation succeeds is
    found, or an earlier one is. *)
Definition CompleteStep (whole : nat) (r : regexp.Syntax)
  (step : list ascii -> list string -> regexp.Cont -> option (list string))
  : Prop :=
  forall s1 s2 caps (k : regexp.Cont),
    regexp.Matches whole r s1 s2 ->
    (forall caps', k s2 caps' <> None) ->
    step (s1 ++ s2) caps k <> None.

(** The bytes of a body still to arrive. *)
Definition content (b : io.Body) : list byte := concat (io.pending b).

(** A bound on the calls of [Read] that return no error. *)
Definition reads (b : io.Body) : nat :=
  (length (content b) + length (io.pending b))%nat.

(** The decimal text of an integer, as [strconv.Itoa] writes it: a
    minus sign for a negative number, no leading zero. *)
Definition decimal (n : Z) : string := NilZero.string_of_int (Z.to_int n).

(* ================================================================== *)
(** * Properties *)

(** ** Strings *)

Lemma sapp_nil_l (s : string) : "" +:+ s = s.
Proof. reflexivity. Qed.

Lemma sapp_cons (c : ascii) (s t : string) :
  String c s +:+ t = String c (s +:+ t).
Proof. reflexivity. Qed.

Ltac sapp := rewrite ?sapp_cons, ?sapp_nil_l in *.

Lemma append_nil_r (s : string) : s +:+ "" = s.
Proof. induction s as [|c s IH]; sapp; [reflexivity | now rewrite IH]. Qed.

Lemma append_assoc (a b c : string) : (a +:+ b) +:+ c = a +:+ (b +:+ c).
Proof. induction a as [|x a IH]; sapp; [reflexivity | now rewrite IH]. Qed.

Lemma length_append (a b : string) :
  String.length (a +:+ b) = (String.length a + String.length b)%nat.
Proof. induction a as [|x a IH]; sapp; simpl; [reflexivity | now rewrite IH]. Qed.

Lemma substring_0_all (s : string) : substring 0 (String.length s) s = s.
Proof. induction s as [|c s IH]; simpl; [reflexivity | now rewrite IH]. Qed.

Lemma substring_prefix (p t : string) :
  substring 0 (String.length p) (p +:+ t) = p.
Proof.
  induction p as [|c p IH]; sapp; simpl.
  - destruct t; reflexivity.
  - now rewrite IH.
Qed.

Lemma substring_suffix (p t : string) :
  substring (String.length p) (String.length t) (p +:+ t) = t.
Proof.
  induction p as [|c p IH]; sapp; simpl; [apply substring_0_all | exact IH].
Qed.

Lemma substring_split (n : nat) (s : string) :
  (n <= String.length s)%nat ->
  s = substring 0 n s +:+ substring n (String.length s - n) s.
Proof.
  revert s. induction n as [|n IH]; intros s Hn.
  - rewrite Nat.sub_0_r, substring_0_all. destruct s; reflexivity.
  - destruct s as [|c s]; simpl in *; [lia|].
    sapp. f_equal. apply IH. lia.
Qed.

Lemma HasPrefix_iff (s p : string) :
  strings.HasPrefix s p = true <-> exists t, s = p +:+ t.
Proof.
  unfold strings.HasPrefix. rewrite andb_true_iff, Nat.leb_le, String.eqb_eq.
  split.
  - intros [Hlen Hsub]. exists (substring (String.length p)
                                  (String.length s - String.length p) s).
    rewrite <- Hsub at 1. now apply substring_split.
  - intros [t ->]. rewrite length_append, substring_prefix. split; [lia | reflexivity].
Qed.

Lemma TrimPrefix_app (p t : string) : strings.TrimPrefix (p +:+ t) p = t.
Proof.
  unfold strings.TrimPrefix.
  assert (H : strings.HasPrefix (p +:+ t) p = true)
    by (apply HasPrefix_iff; now exists t).
  rewrite H, length_append.
  replace (String.length p + String.length t - String.length p)%nat
    with (String.length t) by lia.
  apply substring_suffix.
Qed.

Lemma TrimPrefix_not (s p : string) :
  strings.HasPrefix s p = false -> strings.TrimPrefix s p = s.
Proof. unfold strings.TrimPrefix. now intros ->. Qed.

Lemma Contains_iff (s sub : string) :
  strings.Contains s sub = true <-> exists a b, s = a +:+ sub +:+ b.
Proof.
  induction s as [|c s IH]; simpl.
  - rewrite orb_false_r, HasPrefix_iff. split.
    + intros [t Ht]. now exists "", t.
    + intros [a [b H]]. destruct a; sapp; [now exists b | discriminate].
  - rewrite orb_true_iff, HasPrefix_iff, IH. split.
    + intros [[t Ht] | [a [b Hab]]].
      * now exists "", t.
      * exists (String c a), b. sapp. now rewrite Hab.
    + intros [a [b H]]. destruct a as [|x a]; sapp.
      * left. now exists b.
      * right. exists a, b. now inversion H.
Qed.

(** ** Query and form parameters *)

Lemma singleParamValue_none (args : gmap string (list string)) (name : string) :
  url.index args name = [] ->
  exchange.singleParamValue args name
  = ("", Some (Errorf "missing required param %q" [name])).
Proof. unfold exchange.singleParamValue, url.index. now intros ->. Qed.

Lemma singleParamValue_one (args : gmap string (list string)) (name v : string) :
  url.index args name = [v] -> exchange.singleParamValue args name = (v, None).
Proof. unfold exchange.singleParamValue, url.index. now intros ->. Qed.

Lemma singleParamValue_many (args : gmap string (list string)) (name : string) :
  (1 < length (url.index args name))%nat ->
  exchange.singleParamValue args name
  = ("", Some (Errorf "too many values for param %q, expected only one"
                 [name])).
Proof.
  unfold exchange.singleParamValue, url.index.
  destruct (default [] _) as [|a [|b l]]; simpl; intros; [lia | lia | reflexivity].
Qed.

(** C5.  [QueryParamSingle(name)] reads the values of [name] in the
    query of the request URL and [FormParamSingle(name)] the values in
    the form of the request.  With no value the result is the error
    [missing required param %q] with operand [name]; with exactly one
    value it is that value and no error; with more than one value it is
    the error [too many values for param %q, expected only one] with
    operand [name].  The text of either error holds [name] as a quoted
    string ([q] being what [strconv.Quote] writes for bytes outside
    ASCII). *)
Theorem singleParam_results (q : string -> string) (ex : exchange.Exchange)
  (name : string) :
  let query := url.index (url.Query (http.URL (exchange.Request ex))) name in
  let form := url.index (http.Form (exchange.Request ex)) name in
  let missing := Errorf "missing required param %q" [name] in
  let tooMany :=
    Errorf "too many values for param %q, expected only one" [name] in
  (query = [] -> exchange.QueryParamSingle ex name = ("", Some missing))
  /\ (forall v, query = [v] -> exchange.QueryParamSingle ex name = (v, None))
  /\ ((1 < length query)%nat ->
      exchange.QueryParamSingle ex name = ("", Some tooMany))
  /\ (form = [] -> exchange.FormParamSingle ex name = ("", Some missing))
  /\ (forall v, form = [v] -> exchange.FormParamSingle ex name = (v, None))
  /\ ((1 < length form)%nat ->
      exchange.FormParamSingle ex name = ("", Some tooMany))
  /\ fmt.Sprintf q "missing required param %q" [name]
     = "missing required param " +:+ strconv.Quote q name
  /\ fmt.Sprintf q "too many values for param %q, expected only one" [name]
     = "too many values for param " +:+ strconv.Quote q name
       +:+ ", expected only one".
Proof.
  unfold exchange.QueryParamSingle, exchange.FormParamSingle.
  cbv zeta. repeat split.
  - apply singleParamValue_none.
  - intros v. apply singleParamValue_one.
  - apply singleParamValue_many.
  - apply singleParamValue_none.
  - intros v. apply singleParamValue_one.
  - apply singleParamValue_many.
  - cbn. sapp. now rewrite append_nil_r.
Qed.

(** ** The stages of [New] *)

Lemma New_stages (w : http.ResponseWriter) (req : http.Request)
  (serverSpec : spec.Spec) :
  exchange.New w req serverSpec
  = exchange.setHeader
      (New_echo "Access-Control-Request-Method" "Access-Control-Allow-Methods"
         (New_echo "Access-Control-Request-Headers"
            "Access-Control-Allow-Headers"
            (New_origin (New_host (New_base w req serverSpec) req))))
      "X-Powered-By" ("httpbun/" +:+ spec.Commit serverSpec).
Proof. reflexivity. Qed.
Ltac proj_exchange :=
  unfold exchange.HeaderValueLast, exchange.setHeader,
    exchange.set_ResponseWriter, exchange.set_URL, exchange.set_Fields,
    exchange.set_CappedBody, http.Header_Set, http.Header_Del,
    http.WriteHeader, http.Write in *;
  cbn [exchange.Request exchange.ResponseWriter exchange.Fields
       exchange.CappedBody exchange.URL exchange.ServerSpec
       http.Headers http.calls http.broken fst snd] in *.


Lemma same_refl (a : exchange.Exchange) : same_but_headers a a.
Proof. repeat split. Qed.

Lemma same_trans (a b c : exchange.Exchange) :
  same_but_headers a b -> same_but_headers b c -> same_but_headers a c.
Proof.
  unfold same_but_headers. intros (?&?&?&?&?&?&?) (?&?&?&?&?&?&?).
  repeat split; congruence.
Qed.

Lemma same_setHeader (ex : exchange.Exchange) (key value : string) :
  same_but_headers (exchange.setHeader ex key value) ex.
Proof. repeat split. Qed.

Lemma same_New_origin (ex : exchange.Exchange) :
  same_but_headers (New_origin ex) ex.
Proof. unfold New_origin. cbv zeta. destruct (negb _); repeat split. Qed.

Lemma same_New_echo (from to : string) (ex : exchange.Exchange) :
  same_but_headers (New_echo from to ex) ex.
Proof. unfold New_echo. cbv zeta. destruct (negb _); repeat split. Qed.

Lemma same_New (w : http.ResponseWriter) (req : http.Request)
  (serverSpec : spec.Spec) :
  same_but_headers (exchange.New w req serverSpec)
    (New_host (New_base w req serverSpec) req).
Proof.
  rewrite New_stages.
  eapply same_trans; [apply same_setHeader|].
  eapply same_trans; [apply same_New_echo|].
  eapply same_trans; [apply same_New_echo|].
  apply same_New_origin.
Qed.

Lemma New_Request (w : http.ResponseWriter) (req : http.Request)
  (serverSpec : spec.Spec) :
  exchange.Request (exchange.New w req serverSpec) = req.
Proof.
  destruct (same_New w req serverSpec) as (-> & _).
  unfold New_host. now destruct (_ && _).
Qed.

Lemma New_calls (w : http.ResponseWriter) (req : http.Request)
  (serverSpec : spec.Spec) :
  http.calls (exchange.ResponseWriter (exchange.New w req serverSpec))
  = http.calls w.
Proof.
  destruct (same_New w req serverSpec) as (_ & _ & _ & _ & _ & -> & _).
  unfold New_host. now destruct (_ && _).
Qed.

Lemma New_Path (w : http.ResponseWriter) (req : http.Request)
  (serverSpec : spec.Spec) :
  url.Path (exchange.URL (exchange.New w req serverSpec))
  = strings.TrimPrefix (url.Path (http.URL req)) (spec.PathPrefix serverSpec).
Proof.
  destruct (same_New w req serverSpec) as (_ & _ & _ & -> & _).
  unfold New_host. now destruct (_ && _).
Qed.

Lemma New_CappedBody (w : http.ResponseWriter) (req : http.Request)
  (serverSpec : spec.Spec) :
  exchange.CappedBody (exchange.New w req serverSpec)
  = io.LimitReader (http.Body req) 10000.
Proof.
  destruct (same_New w req serverSpec) as (_ & _ & -> & _).
  unfold New_host. now destruct (_ && _).
Qed.

(** ** Response headers set by [New] *)

Lemma canonical_keys :
  textproto.CanonicalMIMEHeaderKey "Access-Control-Allow-Origin"
  = "Access-Control-Allow-Origin"
  /\ textproto.CanonicalMIMEHeaderKey "Access-Control-Allow-Credentials"
     = "Access-Control-Allow-Credentials"
  /\ textproto.CanonicalMIMEHeaderKey "Access-Control-Allow-Headers"
     = "Access-Control-Allow-Headers"
  /\ textproto.CanonicalMIMEHeaderKey "Access-Control-Allow-Methods"
     = "Access-Control-Allow-Methods"
  /\ textproto.CanonicalMIMEHeaderKey "X-Powered-By" = "X-Powered-By"
  /\ textproto.CanonicalMIMEHeaderKey "Location" = "Location".
Proof. vm_compute. repeat split. Qed.

Lemma Headers_setHeader (ex : exchange.Exchange) (key value : string) :
  http.Headers (exchange.ResponseWriter (exchange.setHeader ex key value))
  = <[textproto.CanonicalMIMEHeaderKey key := [value]]>
      (http.Headers (exchange.ResponseWriter ex)).
Proof. reflexivity. Qed.

(** A header set under another key leaves the entry of [key]. *)
Lemma lookup_setHeader_ne (ex : exchange.Exchange) (k v key : string) :
  textproto.CanonicalMIMEHeaderKey k <> key ->
  http.Headers (exchange.ResponseWriter (exchange.setHeader ex k v)) !! key
  = http.Headers (exchange.ResponseWriter ex) !! key.
Proof. intros Hne. rewrite Headers_setHeader. now apply lookup_insert_ne. Qed.

Lemma lookup_New_echo (from to : string) (ex : exchange.Exchange)
  (key : string) :
  textproto.CanonicalMIMEHeaderKey to <> key ->
  http.Headers (exchange.ResponseWriter (New_echo from to ex)) !! key
  = http.Headers (exchange.ResponseWriter ex) !! key.
Proof.
  intros Hne. unfold New_echo. cbv zeta.
  destruct (negb _); [now apply lookup_setHeader_ne | reflexivity].
Qed.

(** The entries of the CORS pair after [New] are those after the stage
    that sets the pair. *)
Lemma New_lookup_cors (w : http.ResponseWriter) (req : http.Request)
  (serverSpec : spec.Spec) (key : string) :
  key = "Access-Control-Allow-Origin"
  \/ key = "Access-Control-Allow-Credentials" ->
  http.Headers (exchange.ResponseWriter (exchange.New w req serverSpec)) !! key
  = http.Headers (exchange.ResponseWriter
      (New_origin (New_host (New_base w req serverSpec) req))) !! key.
Proof.
  destruct canonical_keys as (_ & _ & Hh & Hm & Hp & _).
  intros Hkey. rewrite New_stages.
  rewrite lookup_setHeader_ne, !lookup_New_echo;
    rewrite ?Hh, ?Hm, ?Hp; try reflexivity;
    destruct Hkey; subst; discriminate.
Qed.

Lemma Get_lookup (h : textproto.MIMEHeader) (key v : string) :
  textproto.CanonicalMIMEHeaderKey key = key ->
  h !! key = Some [v] -> textproto.Get h key = v.
Proof.
  intros Hk Hl. unfold textproto.Get, textproto.index. now rewrite Hk, Hl.
Qed.

(** C1, as stated, fails: a request whose header [Origin] is the
    wildcard gets the wildcard as [Access-Control-Allow-Origin]. *)
Lemma New_echoes_wildcard_origin :
  let h := http.Headers (exchange.ResponseWriter
             (exchange.New sample.writer
                (sample.get "/get" "" [("Origin", ["*"])] "192.0.2.7:51234")
                (sample.config ""))) in
  h !! "Access-Control-Allow-Origin" = Some ["*"]
  /\ textproto.Get h "Access-Control-Allow-Origin" = "*".
Proof. vm_compute. split; reflexivity. Qed.

(** C1, amended.  [New] reads the last value of the request header
    [Origin].  When that value is not empty, the response header
    [Access-Control-Allow-Origin] is exactly that value, so it is the
    wildcard only when the request itself sent the wildcard as its
    origin, and [Access-Control-Allow-Credentials] is [true].  When the
    header is absent or its last value is empty, the two response
    headers are what they were in the response writer [New] was given. *)
Theorem New_cors_headers (w : http.ResponseWriter) (req : http.Request)
  (serverSpec : spec.Spec) :
  let origin := default "" (last (textproto.index (http.Header req) "Origin")) in
  let h := http.Headers (exchange.ResponseWriter (exchange.New w req serverSpec)) in
  (origin <> "" ->
     h !! "Access-Control-Allow-Origin" = Some [origin]
     /\ textproto.Get h "Access-Control-Allow-Origin" = origin
     /\ (origin <> "*" -> textproto.Get h "Access-Control-Allow-Origin" <> "*")
     /\ h !! "Access-Control-Allow-Credentials" = Some ["true"]
     /\ textproto.Get h "Access-Control-Allow-Credentials" = "true")
  /\ (origin = "" ->
        h !! "Access-Control-Allow-Origin"
        = http.Headers w !! "Access-Control-Allow-Origin"
        /\ h !! "Access-Control-Allow-Credentials"
           = http.Headers w !! "Access-Control-Allow-Credentials").
Proof.
  destruct canonical_keys as (Ho & Hc & _).
  intros origin h.
  assert (HO : h !! "Access-Control-Allow-Origin"
               = if negb (String.eqb origin "") then Some [origin]
                 else http.Headers w !! "Access-Control-Allow-Origin").
  { subst h. rewrite New_lookup_cors by auto.
    unfold New_origin, New_host, exchange.HeaderValueLast. cbv zeta.
    destruct (_ && _); cbn [exchange.Request exchange.set_URL New_base];
      fold origin; destruct (negb _); try reflexivity;
      rewrite lookup_setHeader_ne by (rewrite Hc; discriminate);
      rewrite Headers_setHeader, Ho; apply lookup_insert_eq. }
  assert (HC : h !! "Access-Control-Allow-Credentials"
               = if negb (String.eqb origin "") then Some ["true"]
                 else http.Headers w !! "Access-Control-Allow-Credentials").
  { subst h. rewrite New_lookup_cors by auto.
    unfold New_origin, New_host, exchange.HeaderValueLast. cbv zeta.
    destruct (_ && _); cbn [exchange.Request exchange.set_URL New_base];
      fold origin; destruct (negb _); try reflexivity;
      rewrite Headers_setHeader, Hc; apply lookup_insert_eq. }
  clearbody h. split.
  - intros Hne.
    assert (Hb : negb (String.eqb origin "") = true)
      by (apply negb_true_iff, String.eqb_neq, Hne).
    rewrite Hb in HO, HC.
    assert (HG : textproto.Get h "Access-Control-Allow-Origin" = origin)
      by (apply Get_lookup; assumption).
    repeat split; try assumption.
    + now rewrite HG.
    + apply Get_lookup; assumption.
  - intros Hempty. rewrite Hempty in HO, HC. now split.
Qed.

(** ** The scheme of the request *)

(** C8, as stated, fails: with the forwarded-proto header set to [ftp]
    and no certificate configured, [FindScheme] returns [ftp], which is
    neither of the two schemes. *)
Lemma FindScheme_returns_other_scheme :
  exchange.FindScheme ∅
    (exchange.New sample.writer
       (sample.get "/get" "" [("X-Httpbun-Forwarded-Proto", ["ftp"])]
          "192.0.2.7:51234")
       (sample.config "")) = "ftp".
Proof. vm_compute. reflexivity. Qed.

(** C8, amended.  [FindScheme] returns the last value of the header
    [X-Httpbun-Forwarded-Proto] as it is whenever that value is not
    empty, whatever the environment holds; otherwise it returns [https]
    when the variable [HTTPBUN_SSL_CERT] is set to a non-empty value,
    and [http] when it is not. *)
Theorem FindScheme_cases (env : os.Environ) (ex : exchange.Exchange) :
  let proto := exchange.HeaderValueLast ex "X-Httpbun-Forwarded-Proto" in
  (proto <> "" -> exchange.FindScheme env ex = proto)
  /\ (proto = "https" -> exchange.FindScheme env ex = "https")
  /\ (proto = "" -> os.Getenv env "HTTPBUN_SSL_CERT" <> "" ->
      exchange.FindScheme env ex = "https")
  /\ (proto = "" -> os.Getenv env "HTTPBUN_SSL_CERT" = "" ->
      exchange.FindScheme env ex = "http").
Proof.
  intros proto. unfold exchange.FindScheme. fold proto.
  destruct (String.eqb_spec proto "") as [He | Hne]; cbn [negb].
  - rewrite He. repeat split; try congruence.
    + intros _ Hcert. apply String.eqb_neq in Hcert. now rewrite Hcert.
    + intros _ Hcert. now rewrite Hcert.
  - repeat split; congruence.
Qed.

(** ** The address of the client *)

(** C9, as stated, fails.  A forwarded-for header that is present with
    an empty value is passed over and the address of the peer is
    returned.  And the peer address of an IPv6 link-local client,
    [fe80::1%eth0] with port 51234, splits into host and port, the host
    with its zone is not an IP literal for [net.ParseIP], and
    [FindIncomingIPAddress] returns the empty string without logging;
    so it does for the peer address [localhost:80]. *)
Lemma FindIncomingIPAddress_silent :
  let ex h addr := exchange.New sample.writer (sample.get "/ip" "" h addr)
                     (sample.config "") in
  exchange.FindIncomingIPAddress
    (ex [("X-Httpbun-Forwarded-For", [""])] "192.0.2.7:51234") []
  = ("192.0.2.7", [])
  /\ net.SplitHostPort "[fe80::1%eth0]:51234" = inl ("fe80::1%eth0", "51234")
  /\ net.ParseIP "fe80::1%eth0" = None
  /\ exchange.FindIncomingIPAddress (ex [] "[fe80::1%eth0]:51234") []
     = ("", [])
  /\ exchange.FindIncomingIPAddress (ex [] "localhost:80") [] = ("", []).
Proof. vm_compute. repeat split. Qed.

(** C9, amended.  [FindIncomingIPAddress] returns the last value of the
    header [X-Httpbun-Forwarded-For] whenever that value is not empty,
    whatever the peer address is, and logs nothing.  Otherwise it splits
    the peer address into host and port: when the address does not split
    it logs [Unable to read IP from address %q.] with the address and
    returns the empty string; when the host is not an IP literal it
    returns the empty string; when the host is an IP literal it returns
    the text of that address and logs nothing. *)
Theorem FindIncomingIPAddress_cases (ex : exchange.Exchange)
  (out : list output) :
  let forwarded := exchange.HeaderValueLast ex "X-Httpbun-Forwarded-For" in
  let addr := http.RemoteAddr (exchange.Request ex) in
  (forwarded <> "" ->
   exchange.FindIncomingIPAddress ex out = (forwarded, out))
  /\ (forwarded = "" -> forall err, net.SplitHostPort addr = inr err ->
      exchange.FindIncomingIPAddress ex out
      = ("", out ++ [log_Printf "Unable to read IP from address %q."
                       [VString addr]]))
  /\ (forwarded = "" -> forall host port,
      net.SplitHostPort addr = inl (host, port) -> net.ParseIP host = None ->
      fst (exchange.FindIncomingIPAddress ex out) = "")
  /\ (forwarded = "" -> forall host port ip,
      net.SplitHostPort addr = inl (host, port) ->
      net.ParseIP host = Some ip ->
      exchange.FindIncomingIPAddress ex out = (net.IP_String ip, out)).
Proof.
  intros forwarded addr. unfold exchange.FindIncomingIPAddress.
  fold forwarded addr.
  destruct (String.eqb_spec forwarded "") as [He | Hne].
  - rewrite He. repeat split; try congruence.
    + intros _ err ->. reflexivity.
    + intros _ host port -> ->. reflexivity.
    + intros _ host port ip -> ->. reflexivity.
  - repeat split; congruence.
Qed.

(** ** The derived path *)

(** C7, as stated, fails: under the prefix [/api] the request path
    [/api/api/x] gives the derived path [/api/x], which contains the
    prefix. *)
Lemma New_Path_contains_prefix :
  let ex := exchange.New sample.writer
              (sample.get "/api/api/x" "" [] "192.0.2.7:51234")
              (sample.config "/api") in
  url.Path (exchange.URL ex) = "/api/x"
  /\ strings.Contains (url.Path (exchange.URL ex)) "/api" = true.
Proof. vm_compute. split; reflexivity. Qed.

(** C7, amended.  The path of the derived URL is the request path
    without one leading occurrence of the configured prefix, and the
    request path itself when it does not start with the prefix.  It does
    not contain the prefix when the prefix is not empty and occurs in
    the request path at its start only. *)
Theorem New_Path_trimmed (w : http.ResponseWriter) (req : http.Request)
  (serverSpec : spec.Spec) :
  let path := url.Path (http.URL req) in
  let prefix := spec.PathPrefix serverSpec in
  let derived := url.Path (exchange.URL (exchange.New w req serverSpec)) in
  (strings.HasPrefix path prefix = true -> path = prefix +:+ derived)
  /\ (strings.HasPrefix path prefix = false -> derived = path)
  /\ (prefix <> "" ->
      (forall a b, path = a +:+ prefix +:+ b -> a = "") ->
      strings.Contains derived prefix = false).
Proof.
  intros path prefix derived. subst derived. rewrite New_Path.
  fold path prefix. split; [|split].
  - intros [t Ht]%HasPrefix_iff. rewrite Ht at 2. now rewrite TrimPrefix_app.
  - apply TrimPrefix_not.
  - intros Hne Honly.
    destruct (strings.Contains _ prefix) eqn:Hc; [exfalso | reflexivity].
    apply Contains_iff in Hc as (a & b & Hab).
    destruct (strings.HasPrefix path prefix) eqn:Hp.
    + apply HasPrefix_iff in Hp as [t Ht].
      rewrite Ht, TrimPrefix_app in Hab.
      specialize (Honly (prefix +:+ a) b).
      rewrite Ht, Hab, append_assoc in Honly. specialize (Honly eq_refl).
      destruct prefix; [congruence | discriminate].
    + rewrite TrimPrefix_not in Hab by assumption.
      specialize (Honly a b Hab). subst a. sapp.
      assert (Hp' : strings.HasPrefix path prefix = true)
        by (apply HasPrefix_iff; now exists b).
      congruence.
Qed.

(** ** Redirects *)

Lemma Sprintf_redirectFormat (q : string -> string) (target : string) :
  fmt.Sprintf q exchange.redirectFormat [target; target]
  = "<!doctype html>
<title>Redirecting...</title>
<h1>Redirecting...</h1>
<p>You should be redirected automatically to target URL: <a href="
    +:+ strconv.Quote q target +:+ ">" +:+ target
    +:+ "</a>.  If not click the link.</p>
".
Proof.
  unfold exchange.redirectFormat. cbn [fmt.Sprintf Ascii.eqb Bool.eqb].
  sapp. unfold fmt.verb. cbn [Ascii.eqb Bool.eqb orb].
  reflexivity.
Qed.

(** C6, as stated, fails: the target [/a?x=1&y=<2>] under the prefix
    [/api] is written into the body as it is, in the attribute (between
    double quotes) and in the text of the link; its HTML-escaped form
    does not occur in the body. *)
Lemma Redirect_target_not_escaped :
  let ex := exchange.New sample.writer
              (sample.get "/api/redirect" "" [] "192.0.2.7:51234")
              (sample.config "/api") in
  let w := exchange.ResponseWriter
             (fst (exchange.Redirect (fun s => s) ex "/a?x=1&y=<2>" [])) in
  strings.Contains (http.Written w)
    ("<a href=" +:+ String dquote ("/api/a?x=1&y=<2>" +:+ String dquote
       ">/api/a?x=1&y=<2></a>")) = true
  /\ html.EscapeString "/api/a?x=1&y=<2>" = "/api/a?x=1&amp;y=&lt;2&gt;"
  /\ strings.Contains (http.Written w) "/api/a?x=1&amp;y=&lt;2&gt;" = false.
Proof. vm_compute. repeat split. Qed.

(** C6, amended.  [Redirect(target)] prepends the configured prefix to a
    target that starts with a slash, sets the response header [Location]
    to the resulting target, calls [WriteHeader] with 302 (the status of
    the response when nothing was written before) and then writes one
    HTML body with an anchor whose attribute [href] is the resulting
    target as a Go double-quoted string ([%q]) and whose text is the
    resulting target as it is ([%s]); an error of that write is logged. *)
Theorem Redirect_response (q : string -> string) (ex : exchange.Exchange)
  (target : string) (out : list output) :
  let prefix := spec.PathPrefix (exchange.ServerSpec ex) in
  let target' :=
    if strings.HasPrefix target "/" then prefix +:+ target else target in
  let res := exchange.Redirect q ex target out in
  let w := exchange.ResponseWriter ex in
  let w' := exchange.ResponseWriter (fst res) in
  http.Headers w' !! "Location" = Some [target']
  /\ textproto.Get (http.Headers w') "Location" = target'
  /\ http.calls w'
     = http.calls w
       ++ [http.CallWriteHeader 302;
           http.CallWrite ("<!doctype html>
<title>Redirecting...</title>
<h1>Redirecting...</h1>
<p>You should be redirected automatically to target URL: <a href="
             +:+ strconv.Quote q target' +:+ ">" +:+ target'
             +:+ "</a>.  If not click the link.</p>
")]
  /\ (http.calls w = [] -> http.Status w' = Some 302)
  /\ snd res
     = match http.broken w with
       | Some err =>
           out ++ [log_Printf "Error writing redirect HTML to HTTP response %v"
                     [VError err]]
       | None => out
       end.
Proof.
  destruct canonical_keys as (_ & _ & _ & _ & _ & Hl).
  intros prefix target' res w w'. subst res w w'.
  unfold exchange.Redirect. fold prefix. fold target'.
  proj_exchange. unfold textproto.Set_. rewrite Hl, Sprintf_redirectFormat.
  assert (Hlook : (<["Location" := [target']]>
                     (http.Headers (exchange.ResponseWriter ex)))
                  !! "Location" = Some [target'])
    by apply lookup_insert_eq.
  repeat split.
  - exact Hlook.
  - apply Get_lookup; [exact Hl | exact Hlook].
  - now rewrite <- app_assoc.
  - intros Hc. unfold http.Status. cbn [http.calls]. now rewrite Hc.
Qed.

Example regexp_examples :
  let digits := regexp.CharClass [("0", "9")]%char in
  let items := regexp.anchored (regexp.Concat (regexp.literal "/items/")
      (regexp.Capture "id"
         (regexp.Concat digits (regexp.Star [("0", "9")]%char)))) in
  regexp.FindStringSubmatch (regexp.MustCompile items) "/items/42" = Some ["/items/42"; "42"]
  /\ regexp.SubexpNames (regexp.MustCompile items) = [""; "id"]
  /\ regexp.FindStringSubmatch (regexp.MustCompile items) "/items/42/x" = None
  /\ regexp.FindStringSubmatch (regexp.MustCompile (regexp.literal "/a")) "/x/a/b" = Some ["/a"]
  /\ regexp.FindStringSubmatch (regexp.MustCompile
       (regexp.Concat
          (regexp.Capture ""
             (regexp.Alternate (regexp.Literal "a")
                (regexp.Capture "b" (regexp.Literal "b"))))
          (regexp.Capture "rest" (regexp.Star [("c", "c")]%char))))
       "xbccd" = Some ["bcc"; "b"; "b"; "cc"]
  /\ regexp.FindStringSubmatch (regexp.MustCompile
       (regexp.Concat (regexp.Capture "" (regexp.Star [("a", "b")]%char))
          (regexp.Literal "b")))
       "aabbc" = Some ["aabb"; "aab"].
Proof. vm_compute. repeat split. Qed.

(** ** The matcher and what a pattern matches *)

Section MatcherCorrect.
Variable whole : nat.


Lemma starLoop_sound (ranges : list (ascii * ascii)) (k : regexp.Cont) :
  forall s caps res,
    regexp.starLoop ranges k s caps = Some res ->
    exists s1 s2,
      s = s1 ++ s2 /\ regexp.Matches whole (regexp.Star ranges) s1 s2
      /\ k s2 caps = Some res.
Proof.
  induction s as [|d s IH]; intros caps res H; simpl in H.
  - exists [], []. repeat split; [constructor | exact H].
  - destruct (regexp.inClass ranges d) eqn:Hd.
    + destruct (regexp.starLoop ranges k s caps) as [m|] eqn:Hm.
      * inversion H; subst m; clear H.
        apply IH in Hm as (a & b & -> & Ha & Hk).
        exists (d :: a), b. repeat split; [now constructor | exact Hk].
      * exists [], (d :: s). repeat split; [constructor | exact H].
    + exists [], (d :: s). repeat split; [constructor | exact H].
Qed.

Lemma matchHere_sound (r : regexp.Syntax) :
  forall base, SoundStep whole r (regexp.matchHere whole r base).
Proof.
  induction r as [|c|ranges|r1 IH1 r2 IH2|r1 IH1 r2 IH2|ranges|name r1 IH1| |];
    intros base s caps k res H; simpl in H.
  - exists [], s, caps. repeat split; [constructor | exact H].
  - destruct s as [|d s]; [discriminate|].
    destruct (Ascii.eqb_spec c d) as [<-|]; [|discriminate].
    exists [c], s, caps. repeat split; [constructor | exact H].
  - destruct s as [|d s]; [discriminate|].
    destruct (regexp.inClass ranges d) eqn:Hd; [|discriminate].
    exists [d], s, caps. repeat split; [now constructor | exact H].
  - apply IH1 in H as (a & b & caps1 & -> & Ha & Hlen1 & H).
    apply IH2 in H as (c & d & caps2 & -> & Hc & Hlen2 & H).
    exists (a ++ c), d, caps2. repeat split.
    + now rewrite app_assoc.
    + now constructor.
    + congruence.
    + exact H.
  - destruct (regexp.matchHere whole r1 base s caps k) as [m|] eqn:Hm.
    + inversion H; subst m; clear H.
      apply IH1 in Hm as (a & b & caps1 & -> & Ha & Hlen & Hk).
      exists a, b, caps1. repeat split; [now apply regexp.MAltL | | ]; assumption.
    + apply IH2 in H as (a & b & caps1 & -> & Ha & Hlen & Hk).
      exists a, b, caps1. repeat split; [now apply regexp.MAltR | | ]; assumption.
  - apply starLoop_sound in H as (a & b & -> & Ha & Hk).
    exists a, b, caps. repeat split; [exact Ha | exact Hk].
  - apply IH1 in H as (a & b & caps1 & -> & Ha & Hlen & Hk).
    exists a, b, (<[base := regexp.consumed (a ++ b) b]> caps1).
    repeat split; [now constructor | | exact Hk].
    now rewrite length_insert.
  - destruct (Nat.eqb_spec (length s) whole) as [Hw|]; [|discriminate].
    exists [], s, caps. repeat split; [now constructor | exact H].
  - destruct s; [|discriminate].
    exists [], [], caps. repeat split; [constructor | exact H].
Qed.


Lemma starLoop_complete (ranges : list (ascii * ascii)) (k : regexp.Cont) :
  forall s1 s2 caps,
    regexp.Matches whole (regexp.Star ranges) s1 s2 ->
    k s2 caps <> None ->
    regexp.starLoop ranges k (s1 ++ s2) caps <> None.
Proof.
  induction s1 as [|c s1 IH]; intros s2 caps Hm Hk.
  - simpl. destruct s2 as [|d s2]; simpl; [exact Hk|].
    destruct (regexp.inClass ranges d); [|exact Hk].
    destruct (regexp.starLoop ranges k s2 caps); [discriminate | exact Hk].
  - inversion Hm as [| | | | | | |ranges' c' s' rest Hc Hs| | |]; subst.
    simpl. rewrite Hc.
    destruct (regexp.starLoop ranges k (s1 ++ s2) caps) eqn:Hl;
      [discriminate|].
    exfalso. revert Hl. now apply IH.
Qed.

Lemma matchHere_complete (r : regexp.Syntax) :
  forall base, CompleteStep whole r (regexp.matchHere whole r base).
Proof.
  induction r as [|c|ranges|r1 IH1 r2 IH2|r1 IH1 r2 IH2|ranges|name r1 IH1| |];
    intros base s1 s2 caps k Hm Hk; inversion Hm; subst; simpl.
  - apply Hk.
  - rewrite Ascii.eqb_refl. apply Hk.
  - match goal with H : regexp.inClass _ _ = true |- _ => rewrite H end.
    apply Hk.
  - rewrite <- app_assoc. apply IH1; [assumption|].
    intros caps'. now apply IH2.
  - destruct (regexp.matchHere whole r1 base (s1 ++ s2) caps k) eqn:H1;
      [discriminate|].
    exfalso. revert H1. now apply IH1.
  - destruct (regexp.matchHere whole r1 base (s1 ++ s2) caps k) eqn:H1;
      [discriminate|].
    now apply IH2.
  - apply (starLoop_complete ranges k [] s2 caps); [exact Hm | apply Hk].
  - apply (starLoop_complete ranges k (_ :: _) s2 caps); [exact Hm | apply Hk].
  - apply IH1; [assumption|]. intros caps'. apply Hk.
  - rewrite Nat.eqb_refl. apply Hk.
  - apply Hk.
Qed.

(** The search finds a match exactly when the pattern matches at some
    offset of the text searched. *)
Lemma findFrom_Some (r : regexp.Syntax) (s : list ascii) (m : list string) :
  regexp.findFrom whole r s = Some m ->
  length m = S (regexp.NumSubexp r)
  /\ exists pre mid suf,
       s = pre ++ mid ++ suf /\ regexp.Matches whole r mid suf.
Proof.
  induction s as [|c s IH]; simpl;
    destruct (regexp.matchHere whole r 1 _ _ _) as [m'|] eqn:Hm;
    intros H; try discriminate.
  - inversion H; subst m'; clear H.
    apply matchHere_sound in Hm as (a & b & caps' & Hs & Ha & Hlen & Hk).
    inversion Hk; subst m. split.
    + rewrite length_insert, Hlen. simpl. now rewrite length_replicate.
    + exists [], a, b. now split.
  - inversion H; subst m'; clear H.
    apply matchHere_sound in Hm as (a & b & caps' & Hs & Ha & Hlen & Hk).
    inversion Hk; subst m. split.
    + rewrite length_insert, Hlen. simpl. now rewrite length_replicate.
    + exists [], a, b. now split.
  - apply IH in H as (Hlen & pre & mid & suf & -> & Hmid). split; [exact Hlen|].
    exists (c :: pre), mid, suf. now split.
Qed.

Lemma findFrom_complete (r : regexp.Syntax) (pre mid suf : list ascii) :
  regexp.Matches whole r mid suf ->
  regexp.findFrom whole r (pre ++ mid ++ suf) <> None.
Proof.
  intros Hm. induction pre as [|c pre IH].
  - simpl. assert (H : regexp.matchHere whole r 1 (mid ++ suf)
                         (replicate (S (regexp.NumSubexp r)) EmptyString)
                         (fun s' caps =>
                            Some (<[O := regexp.consumed (mid ++ suf) s']> caps))
                       <> None)
      by (apply matchHere_complete; [exact Hm | discriminate]).
    revert H. generalize (mid ++ suf). intros l H.
    destruct l; simpl; destruct (regexp.matchHere whole r 1 _ _ _); congruence.
  - simpl. destruct (regexp.matchHere whole r 1 _ _ _); [discriminate | exact IH].
Qed.

End MatcherCorrect.

Lemma length_groupNames (r : regexp.Syntax) :
  length (regexp.groupNames r) = regexp.NumSubexp r.
Proof.
  induction r; simpl; rewrite ?length_app; congruence.
Qed.

Lemma MustCompile_WellFormed (r : regexp.Syntax) :
  regexp.WellFormed (regexp.MustCompile r).
Proof.
  intros s m H. simpl in *. apply findFrom_Some in H as [Hlen _].
  now rewrite length_groupNames.
Qed.

Lemma MustCompile_finds (r : regexp.Syntax) (text : string) :
  regexp.FindStringSubmatch (regexp.MustCompile r) text <> None
  <-> regexp.MatchesPart r text.
Proof.
  unfold regexp.MatchesPart. simpl. split.
  - destruct (regexp.findFrom _ r _) as [m|] eqn:H; [intros _ | congruence].
    apply findFrom_Some in H as [_ H]. exact H.
  - intros (pre & mid & suf & Hl & Hm). rewrite Hl at 2.
    now apply findFrom_complete.
Qed.

(** Between the anchors, a match of a part is a match of the whole. *)
Lemma anchored_MatchesAll (r : regexp.Syntax) (text : string) :
  regexp.MatchesPart (regexp.anchored r) text <-> regexp.MatchesAll r text.
Proof.
  unfold regexp.MatchesPart, regexp.MatchesAll, regexp.anchored.
  cbv zeta. generalize (list_ascii_of_string text). intros l. split.
  - intros (pre & mid & suf & Hl & Hm).
    inversion Hm as [| | |r1 r2 s1 s2 rest H1 H2| | | | | | |]; subst.
    inversion H1; subst.
    inversion H2 as [| | |r1 r2 a b rest Ha Hb| | | | | | |]; subst.
    inversion Hb; subst.
    rewrite !app_nil_r in *. simpl in *.
    match goal with H : length a = length (pre ++ a) |- _ =>
      rewrite length_app in H; destruct pre; [exact Ha | simpl in H; lia] end.
  - intros Hm. exists [], l, []. split; [now rewrite app_nil_r|].
    change l with ([] ++ l) at 2. constructor.
    + constructor. now rewrite !app_nil_r.
    + rewrite <- (app_nil_r l) at 2. constructor; [exact Hm | constructor].
Qed.

(** A decision of [MatchesAll] by the matcher: the continuation accepts
    the end of the text only. *)
Lemma MatchesAll_matchHere (r : regexp.Syntax) (text : string) :
  regexp.MatchesAll r text ->
  let l := list_ascii_of_string text in
  regexp.matchHere (length l) r 1 l []
    (fun s' caps => match s' with [] => Some caps | _ :: _ => None end)
  <> None.
Proof.
  unfold regexp.MatchesAll. cbv zeta. intros Hm.
  rewrite <- (app_nil_r (list_ascii_of_string text)) at 2.
  apply matchHere_complete; [exact Hm | discriminate].
Qed.

(** ** Loading the fields *)

Lemma loadFields_frame (names : list string) :
  forall i m f f', exchange.loadFields names i m f = Some f' ->
  forall key, key = "" \/ key ∉ names -> f' !! key = f !! key.
Proof.
  induction names as [|name names IH]; intros i m f f' H key Hkey; simpl in H.
  - now inversion H.
  - destruct (String.eqb_spec name "") as [He|Hne]; cbn [negb] in H.
    + eapply IH; [exact H|]. destruct Hkey as [|Hk]; [now left | right].
      intros Hin. apply Hk. now right.
    + destruct (m !! i) as [v|]; [|discriminate].
      erewrite IH; [|exact H|].
      * apply lookup_insert_ne. destruct Hkey as [->|Hk]; [exact Hne|].
        intros ->. apply Hk. now left.
      * destruct Hkey as [|Hk]; [now left | right].
        intros Hin. apply Hk. now right.
Qed.

Lemma loadFields_total (names : list string) :
  forall i m f, (i + length names <= length m)%nat ->
  exists f', exchange.loadFields names i m f = Some f'.
Proof.
  induction names as [|name names IH]; intros i m f Hlen; simpl in *.
  - now exists f.
  - destruct (negb _).
    + destruct (lookup_lt_is_Some_2 m i) as [v Hv]; [lia|]. rewrite Hv.
      apply IH. lia.
    + apply IH. lia.
Qed.

Lemma loadFields_value (names : list string) :
  forall i m f f', exchange.loadFields names i m f = Some f' ->
  forall j name, names !! j = Some name -> name <> "" ->
    (forall j', (j < j')%nat -> names !! j' <> Some name) ->
    m !! (i + j)%nat <> None /\ f' !! name = m !! (i + j)%nat.
Proof.
  induction names as [|n names IH]; intros i m f f' H j name Hj Hne Hlast;
    [discriminate|].
  simpl in H. destruct j as [|j]; simpl in Hj.
  - inversion Hj; subst n; clear Hj.
    destruct (String.eqb_spec name "") as [|_]; [contradiction|].
    cbn [negb] in H. rewrite Nat.add_0_r.
    destruct (m !! i) as [v|]; [|discriminate]. split; [discriminate|].
    erewrite loadFields_frame; [apply lookup_insert_eq | exact H |].
    right. intros (j' & Hj')%list_elem_of_lookup.
    apply (Hlast (S j')); [lia | exact Hj'].
  - replace (i + S j)%nat with (S i + j)%nat by lia.
    assert (Hlast' : forall j', (j < j')%nat -> names !! j' <> Some name)
      by (intros j' Hlt; apply (Hlast (S j')); lia).
    destruct (negb _).
    + destruct (m !! i) as [v|]; [|discriminate].
      eapply IH; eauto.
    + eapply IH; eauto.
Qed.

(** The two ways [MatchAndLoadFields] returns for a pattern whose
    matches have one element for each group name. *)
Lemma MatchAndLoadFields_cases (ex : exchange.Exchange)
  (routePat : regexp.Regexp) :
  regexp.WellFormed routePat ->
  let path := url.Path (exchange.URL ex) in
  (regexp.FindStringSubmatch routePat path = None
   /\ exchange.MatchAndLoadFields ex routePat = Some (ex, false))
  \/ (exists match_ fields,
        regexp.FindStringSubmatch routePat path = Some match_
        /\ exchange.loadFields (regexp.SubexpNames routePat) 0 match_
             (exchange.Fields ex) = Some fields
        /\ exchange.MatchAndLoadFields ex routePat
           = Some (exchange.set_Fields ex fields, true)).
Proof.
  intros Hwf path. unfold exchange.MatchAndLoadFields. fold path.
  destruct (regexp.FindStringSubmatch routePat path) as [m|] eqn:Hm.
  - right.
    destruct (loadFields_total (regexp.SubexpNames routePat) 0 m
                (exchange.Fields ex)) as [f' Hf'].
    { rewrite (Hwf _ _ Hm). simpl. lia. }
    exists m, f'. now rewrite Hf'.
  - left. now split.
Qed.

(** C10.  For a pattern whose matches have one element for each group
    name, [MatchAndLoadFields] returns; when it returns false the
    Exchange is as it was; in either case an entry of the field map
    whose key is not the non-empty name of a group of the pattern keeps
    its value (or stays absent), and nothing but the field map
    changes. *)
Theorem MatchAndLoadFields_frame (ex : exchange.Exchange)
  (routePat : regexp.Regexp) :
  regexp.WellFormed routePat ->
  exists ex' ok,
    exchange.MatchAndLoadFields ex routePat = Some (ex', ok)
    /\ (ok = false -> ex' = ex)
    /\ (forall key,
          key = "" \/ key ∉ regexp.SubexpNames routePat ->
          exchange.Fields ex' !! key = exchange.Fields ex !! key)
    /\ ex' = exchange.set_Fields ex (exchange.Fields ex').
Proof.
  intros Hwf.
  destruct (MatchAndLoadFields_cases ex routePat Hwf)
    as [[_ ->] | (m & f' & _ & Hf' & ->)].
  - exists ex, false. repeat split. destruct ex; reflexivity.
  - exists (exchange.set_Fields ex f'), true.
    repeat split; [discriminate|].
    intros key Hkey. simpl. eapply loadFields_frame; eauto.
Qed.

(** The theorem at the pattern [^/items/(?P<id>[0-9]+)$] and the path
    [/items/42], with a field [other] set before. *)
Lemma MatchAndLoadFields_frame_witness :
  let ex := exchange.set_Fields
              (exchange.New sample.writer
                 (sample.get "/items/42" "" [] "192.0.2.7:51234")
                 (sample.config ""))
              {[ "other" := "kept" ]} in
  let routePat := regexp.MustCompile sample.items in
  regexp.WellFormed routePat
  /\ exists ex' ok,
       exchange.MatchAndLoadFields ex routePat = Some (ex', ok)
       /\ (ok = false -> ex' = ex)
       /\ (forall key,
             key = "" \/ key ∉ regexp.SubexpNames routePat ->
             exchange.Fields ex' !! key = exchange.Fields ex !! key)
       /\ ex' = exchange.set_Fields ex (exchange.Fields ex').
Proof.
  split; [apply MustCompile_WellFormed|].
  apply MatchAndLoadFields_frame, MustCompile_WellFormed.
Defined.

(** ** What [MatchAndLoadFields] matches *)

(** C4, as stated, fails: on the path [/x/a/b] the pattern [/a], which
    does not match the whole path, makes [MatchAndLoadFields] return
    true. *)
Lemma MatchAndLoadFields_matches_part :
  let ex := exchange.New sample.writer
              (sample.get "/x/a/b" "" [] "192.0.2.7:51234")
              (sample.config "") in
  let r := regexp.literal "/a" in
  url.Path (exchange.URL ex) = "/x/a/b"
  /\ option_map snd (exchange.MatchAndLoadFields ex (regexp.MustCompile r))
     = Some true
  /\ ~ regexp.MatchesAll r "/x/a/b".
Proof.
  cbv zeta. split; [|split].
  - vm_compute. reflexivity.
  - vm_compute. reflexivity.
  - intros H. apply MatchesAll_matchHere in H. apply H.
    vm_compute. reflexivity.
Qed.

(** C4, amended.  For every pattern and every Exchange,
    [MatchAndLoadFields] returns, and returns true exactly when
    [FindStringSubmatch] of the pattern finds a match in the derived
    path.  On a match, for every non-empty group name of the pattern
    the field map holds, under that name, the text
    [FindStringSubmatch] gives for (the last group of) that name; a key
    that is not such a name keeps its entry, so groups without a name
    load nothing; and when there is no match the Exchange is as it
    was.  The search is not anchored: for a pattern of the fragment
    (literals, classes, concatenation, alternation, repetition of a
    class, groups, [^] and [$]) the result is true exactly when the
    pattern matches some part of the derived path, and this is a match
    of the whole path when the pattern is anchored at both ends
    ([^r$]). *)
Theorem MatchAndLoadFields_result (routePat : regexp.Regexp)
  (ex : exchange.Exchange) :
  regexp.WellFormed routePat ->
  let path := url.Path (exchange.URL ex) in
  let found := regexp.FindStringSubmatch routePat path in
  let names := regexp.SubexpNames routePat in
  exists ex' ok,
    exchange.MatchAndLoadFields ex routePat = Some (ex', ok)
    /\ (ok = true <-> found <> None)
    /\ (forall match_ i name,
          found = Some match_ ->
          names !! i = Some name -> name <> "" ->
          (forall j, (i < j)%nat -> names !! j <> Some name) ->
          exists v, match_ !! i = Some v
                    /\ exchange.Fields ex' !! name = Some v
                    /\ exchange.Field ex' name = v)
    /\ (forall key,
          key = "" \/ key ∉ names ->
          exchange.Fields ex' !! key = exchange.Fields ex !! key)
    /\ (ok = false -> ex' = ex)
    /\ (forall r,
          regexp.parsed r = true -> routePat = regexp.MustCompile r ->
          (ok = true <-> regexp.MatchesPart r path)
          /\ (forall r0, r = regexp.anchored r0 ->
              (ok = true <-> regexp.MatchesAll r0 path))).
Proof.
  intros Hwf path found names.
  assert (Hfrag : forall ok : bool,
            (ok = true <-> found <> None) ->
            forall r,
              regexp.parsed r = true -> routePat = regexp.MustCompile r ->
              (ok = true <-> regexp.MatchesPart r path)
              /\ (forall r0, r = regexp.anchored r0 ->
                  (ok = true <-> regexp.MatchesAll r0 path))).
  { intros ok Hok r _ Hr.
    assert (Hpart : ok = true <-> regexp.MatchesPart r path)
      by (rewrite Hok; subst found routePat; apply MustCompile_finds).
    split; [exact Hpart|].
    intros r0 ->. rewrite Hpart. apply anchored_MatchesAll. }
  destruct (MatchAndLoadFields_cases ex routePat Hwf)
    as [[Hnone HM] | (m & f' & Hm & Hf' & HM)];
    fold path in Hnone || fold path in Hm;
    fold found in Hnone || fold found in Hm.
  - exists ex, false. split; [exact HM|].
    assert (Hok : false = true <-> found <> None)
      by (rewrite Hnone; split; [discriminate | congruence]).
    split; [exact Hok|]. split; [|split; [|split]].
    + intros m i name Hm. congruence.
    + reflexivity.
    + reflexivity.
    + exact (Hfrag false Hok).
  - exists (exchange.set_Fields ex f'), true. split; [exact HM|].
    assert (Hok : true = true <-> found <> None)
      by (rewrite Hm; split; [discriminate | reflexivity]).
    split; [exact Hok|]. split; [|split; [|split]].
    + intros m' i name Hm' Hi Hne Hlast.
      assert (m' = m) by congruence. subst m'.
      destruct (loadFields_value _ _ _ _ _ Hf' i name Hi Hne Hlast) as [Hv Hf].
      simpl in Hv, Hf. destruct (m !! i) as [v|] eqn:Hmi; [|congruence].
      exists v. repeat split; [exact Hf|].
      unfold exchange.Field. simpl. now rewrite Hf.
    + intros key Hkey. simpl. eapply loadFields_frame; eauto.
    + discriminate.
    + exact (Hfrag true Hok).
Qed.

(** ** The dispatcher *)

Lemma MatchAndLoadFields_no_match (ex : exchange.Exchange)
  (routePat : regexp.Regexp) :
  regexp.FindStringSubmatch routePat (url.Path (exchange.URL ex)) = None ->
  exchange.MatchAndLoadFields ex routePat = Some (ex, false).
Proof. unfold exchange.MatchAndLoadFields. now intros ->. Qed.

Lemma MatchAndLoadFields_match (ex : exchange.Exchange)
  (routePat : regexp.Regexp) :
  regexp.WellFormed routePat ->
  regexp.FindStringSubmatch routePat (url.Path (exchange.URL ex)) <> None ->
  exists ex', exchange.MatchAndLoadFields ex routePat = Some (ex', true).
Proof.
  intros Hwf Hm.
  destruct (MatchAndLoadFields_cases ex routePat Hwf)
    as [[Hnone _] | (m & f' & _ & _ & HM)]; [congruence|].
  now exists (exchange.set_Fields ex f').
Qed.

(** Routes that do not match are passed over and leave the Exchange as
    it is. *)
Lemma serveRoutes_skip (before rest : list routes.Route)
  (ex : exchange.Exchange) (ip : string) (out : list output) :
  (forall r, r ∈ before ->
     regexp.FindStringSubmatch (routes.Pat r) (url.Path (exchange.URL ex))
     = None) ->
  server.serveRoutes (before ++ rest) ex ip out
  = server.serveRoutes rest ex ip out.
Proof.
  induction before as [|r before IH]; intros Hnone; [reflexivity|].
  rewrite <- app_comm_cons. cbn [server.serveRoutes].
  rewrite MatchAndLoadFields_no_match by (apply Hnone; now left).
  apply IH. intros r' Hr'. apply Hnone. now right.
Qed.

Lemma Status_NotFound (w : http.ResponseWriter) (req : http.Request) :
  http.calls w = [] -> http.Status (http.NotFound w req) = Some 404.
Proof.
  intros Hc.
  unfold http.Status, http.NotFound, http.Error, http.Write, http.WriteHeader,
    http.Header_Set, http.Header_Del.
  cbn [http.calls fst]. now rewrite Hc.
Qed.

(** C3.  When the request path does not start with the configured
    prefix, [ServeHTTP] answers with [http.NotFound] (status 404) on the
    response writer it was given and does nothing else.  Otherwise it
    builds the Exchange, logs the request, and goes through the route
    table in order: for the first route whose pattern matches the
    derived path it loads the fields, calls the handler of that route
    and returns what the handler leaves, whatever routes follow in the
    table; when no pattern matches it logs a [NotFound] line and
    answers with [http.NotFound]. *)
Theorem ServeHTTP_dispatch (s : server.Server) (w : http.ResponseWriter)
  (req : http.Request) (out : list output) :
  let path := url.Path (http.URL req) in
  let prefix := spec.PathPrefix (server.spec_ s) in
  let ex := exchange.New w req (server.spec_ s) in
  let derived := url.Path (exchange.URL ex) in
  let incomingIP := fst (exchange.FindIncomingIPAddress ex out) in
  let out1 :=
    snd (exchange.FindIncomingIPAddress ex out)
    ++ [log_Printf "From ip=%s %s %s%s"
          [VString incomingIP; VString (http.Method req);
           VString (http.Host req); VURL (http.URL req)]] in
  (strings.HasPrefix path prefix = false ->
     server.ServeHTTP s w req out = Some (http.NotFound w req, out)
     /\ (http.calls w = [] -> http.Status (http.NotFound w req) = Some 404))
  /\ (strings.HasPrefix path prefix = true ->
      forall before route after,
        server.routes_ s = before ++ route :: after ->
        (forall r, r ∈ before ->
           regexp.FindStringSubmatch (routes.Pat r) derived = None) ->
        regexp.FindStringSubmatch (routes.Pat route) derived <> None ->
        regexp.WellFormed (routes.Pat route) ->
        exists ex',
          exchange.MatchAndLoadFields ex (routes.Pat route) = Some (ex', true)
          /\ server.ServeHTTP s w req out
             = Some (exchange.ResponseWriter (fst (routes.Fn route ex' out1)),
                     snd (routes.Fn route ex' out1)))
  /\ (strings.HasPrefix path prefix = true ->
      (forall r, r ∈ server.routes_ s ->
         regexp.FindStringSubmatch (routes.Pat r) derived = None) ->
      server.ServeHTTP s w req out
      = Some (http.NotFound (exchange.ResponseWriter ex) req,
              out1 ++ [log_Printf "NotFound ip=%s %s %s"
                         [VString incomingIP; VString (http.Method req);
                          VURL (http.URL req)]])
      /\ (http.calls w = [] ->
          http.Status (http.NotFound (exchange.ResponseWriter ex) req)
          = Some 404)).
Proof.
  intros path prefix ex derived incomingIP out1.
  unfold server.ServeHTTP. fold path prefix ex.
  split; [|split].
  - intros ->. cbn [negb]. split; [reflexivity | apply Status_NotFound].
  - intros -> before route after Hroutes Hbefore Hmatch Hwf. cbn [negb].
    destruct (MatchAndLoadFields_match ex _ Hwf Hmatch) as [ex' Hex'].
    exists ex'. split; [exact Hex'|].
    subst incomingIP out1.
    destruct (exchange.FindIncomingIPAddress ex out) as [ip out0].
    cbn [fst snd]. rewrite Hroutes, serveRoutes_skip by exact Hbefore.
    cbn [server.serveRoutes]. rewrite Hex'.
    now destruct (routes.Fn route ex' _).
  - intros -> Hnone. cbn [negb]. subst incomingIP out1.
    destruct (exchange.FindIncomingIPAddress ex out) as [ip out0].
    cbn [fst snd]. split.
    + rewrite <- (app_nil_r (server.routes_ s)).
      rewrite serveRoutes_skip by exact Hnone. cbn [server.serveRoutes].
      subst ex. now rewrite New_Request.
    + intros Hc. apply Status_NotFound. subst ex. now rewrite New_calls.
Qed.

(** The theorem at a table of two routes that both match the path
    [/a/b]: the handler of the first is called and writes the body. *)
Lemma ServeHTTP_dispatch_witness :
  let req := sample.get "/api/a/b" "" [] "192.0.2.7:51234" in
  exists w out,
    server.ServeHTTP sample.twoRoutes sample.writer req [] = Some (w, out)
    /\ http.Written w = "first".
Proof.
  cbv zeta.
  destruct (proj1 (proj2 (ServeHTTP_dispatch sample.twoRoutes sample.writer
                            (sample.get "/api/a/b" "" [] "192.0.2.7:51234") []))
              eq_refl [] _ _ eq_refl) as (ex' & Hex' & Hserve).
  - intros r Hr. inversion Hr.
  - vm_compute. discriminate.
  - apply MustCompile_WellFormed.
  - rewrite Hserve. eexists _, _. split; [reflexivity|].
    vm_compute in Hex'. inversion Hex'; subst ex'. vm_compute. reflexivity.
Defined.

(** ** The capped body *)


Lemma LimitedReader_Read_limit (l : io.LimitedReader) (k : nat) :
  io.N l <= 0 -> io.LimitedReader_Read l k = ([], Some EOF, l).
Proof.
  intros H. unfold io.LimitedReader_Read.
  destruct (Z.leb_spec (io.N l) 0); [reflexivity | lia].
Qed.

Lemma LimitedReader_Read_end (l : io.LimitedReader) (k : nat) :
  0 < io.N l -> io.pending (io.R l) = [] ->
  exists l', io.LimitedReader_Read l k = ([], Some (io.final (io.R l)), l').
Proof.
  intros HN Hp. unfold io.LimitedReader_Read, io.Body_Read.
  destruct (Z.leb_spec (io.N l) 0); [lia|]. rewrite Hp. eauto.
Qed.

Lemma LimitedReader_Read_data (l : io.LimitedReader) (k : nat)
  (c : list byte) (cs : list (list byte)) :
  0 < io.N l -> io.pending (io.R l) = c :: cs -> (0 < k)%nat ->
  exists data l',
    io.LimitedReader_Read l k = (data, None, l')
    /\ (length data <= k)%nat
    /\ Z.of_nat (length data) <= io.N l
    /\ content (io.R l) = data ++ content (io.R l')
    /\ io.N l' = io.N l - Z.of_nat (length data)
    /\ io.final (io.R l') = io.final (io.R l)
    /\ (reads (io.R l') < reads (io.R l))%nat.
Proof.
  intros HN Hp Hk. unfold io.LimitedReader_Read, io.Body_Read.
  destruct (Z.leb_spec (io.N l) 0); [lia|]. rewrite Hp.
  set (k' := if io.N l <? Z.of_nat k then Z.to_nat (io.N l) else k).
  assert (Hk' : (0 < k' <= k)%nat /\ Z.of_nat k' <= io.N l)
    by (subst k'; destruct (Z.ltb_spec (io.N l) (Z.of_nat k)); lia).
  eexists _, _. split; [reflexivity|].
  assert (Hlen : (length (take k' c) <= k')%nat)
    by (rewrite length_take; lia).
  set (rest := match drop k' c with [] => cs | x :: d => (x :: d) :: cs end).
  assert (Hrest : concat rest = drop k' c ++ concat cs)
    by (subst rest; destruct (drop k' c); reflexivity).
  assert (Hrest' : (length (drop k' c) + length rest
                    < length c + S (length cs))%nat).
  { subst rest. destruct (drop k' c) eqn:Hd; [simpl; lia|].
    rewrite <- Hd, length_drop. cbn [length].
    destruct c as [|y c]; [now rewrite drop_nil in Hd|]. cbn [length]. lia. }
  unfold reads, content. rewrite Hp. cbn [io.R io.N io.pending io.final].
  fold rest. rewrite Hrest. simpl concat.
  repeat split; try lia.
  - now rewrite app_assoc, take_drop.
  - cbn [length]. rewrite !length_app. lia.
Qed.

Section ReadAllCorrect.
Variable grow : nat -> nat.
Hypothesis grow_larger : forall c, (c < grow c)%nat.

(** What [io.ReadAll] returns on a limited reader: the bytes to arrive
    up to the limit; and the error of the connection when the body ends
    before the limit with an error other than [EOF]. *)
Lemma ReadAll_loop_result (fuel : nat) :
  forall (l : io.LimitedReader) (b : list byte) (cap : nat),
    (length b < cap)%nat -> (reads (io.R l) < fuel)%nat ->
    exists l',
      io.ReadAll_loop grow fuel l b cap
      = Some (b ++ take (Z.to_nat (io.N l)) (content (io.R l)),
              if (Z.to_nat (io.N l) <=? length (content (io.R l)))%nat
              then None
              else match io.final (io.R l) with
                   | EOF => None
                   | e => Some e
                   end,
              l').
Proof.
  induction fuel as [|fuel IH]; intros l b cap Hcap Hfuel; [lia|].
  cbn [io.ReadAll_loop].
  destruct (Z.leb_spec (io.N l) 0) as [HN|HN].
  - rewrite LimitedReader_Read_limit by exact HN.
    replace (Z.to_nat (io.N l)) with O by lia. simpl. eauto.
  - destruct (io.pending (io.R l)) as [|c cs] eqn:Hp.
    + destruct (LimitedReader_Read_end l (cap - length b) HN Hp) as [l' ->].
      unfold content. rewrite Hp. simpl. rewrite take_nil.
      destruct (Nat.leb_spec (Z.to_nat (io.N l)) 0); [lia|].
      destruct (io.final (io.R l)); eauto.
    + destruct (LimitedReader_Read_data l (cap - length b) c cs HN Hp)
        as (data & l' & -> & Hlen & HlenN & Hcontent & HN' & Hfinal & Hreads);
        [lia|].
      destruct (IH l' (b ++ data)
                  (if (length (b ++ data) =? cap)%nat then grow cap else cap))
        as [l'' ->].
      * rewrite length_app.
        destruct (Nat.eqb_spec (length b + length data) cap) as [->|];
          [apply grow_larger | lia].
      * lia.
      * exists l''. rewrite Hcontent, HN', Hfinal, <- app_assoc.
        replace (Z.to_nat (io.N l - Z.of_nat (length data)))
          with (Z.to_nat (io.N l) - length data)%nat by lia.
        rewrite take_app. rewrite (take_ge data) by lia. rewrite length_app.
        do 2 f_equal.
        destruct (Nat.leb_spec (Z.to_nat (io.N l) - length data)
                    (length (content (io.R l'))));
          destruct (Nat.leb_spec (Z.to_nat (io.N l))
                      (length data + length (content (io.R l'))));
          try reflexivity; lia.
Qed.

End ReadAllCorrect.

(** C2.  Whatever the request holds as headers, when [append] enlarges
    a full buffer and [io.ReadAll] is given enough iterations for the
    pieces of the body, [BodyBytes] on the Exchange [New] built returns;
    it returns at most 10000 bytes.  A body of 10000 bytes or more gives
    exactly its first 10000 bytes, nothing is printed, and an error the
    connection has in store after them is not seen.  A shorter body that
    ends with [EOF] is returned whole; one that ends with an error of
    the connection gives nil and the error is printed.  [BodyString] is
    the same bytes as a string. *)
Theorem BodyBytes_capped (grow : nat -> nat) (fuel : nat)
  (w : http.ResponseWriter) (req : http.Request) (serverSpec : spec.Spec)
  (out : list output) :
  (forall c, (c < grow c)%nat) ->
  (reads (http.Body req) < fuel)%nat ->
  let body := content (http.Body req) in
  let ex := exchange.New w req serverSpec in
  exists bytes ex' out',
    exchange.BodyBytes grow fuel ex out = Some (bytes, ex', out')
    /\ exchange.BodyString grow fuel ex out
       = Some (string_of_list_byte bytes, ex', out')
    /\ Z.of_nat (length bytes) <= 10000
    /\ (10000 <= Z.of_nat (length body) ->
        bytes = take (Z.to_nat 10000) body
        /\ Z.of_nat (length bytes) = 10000 /\ out' = out)
    /\ (Z.of_nat (length body) < 10000 -> io.final (http.Body req) = EOF ->
        bytes = body /\ out' = out)
    /\ (Z.of_nat (length body) < 10000 -> io.final (http.Body req) <> EOF ->
        bytes = []
        /\ out' = out ++ [fmt_Println
                            [VString "Error reading request payload";
                             VError (io.final (http.Body req))]]).
Proof.
  intros Hgrow Hfuel body ex.
  unfold exchange.BodyString, exchange.BodyBytes, io.ReadAll.
  subst ex. rewrite New_CappedBody.
  destruct (ReadAll_loop_result grow Hgrow fuel
              (io.LimitReader (http.Body req) 10000) [] 512) as [l' ->];
    [simpl; lia | exact Hfuel |].
  cbn [io.LimitReader io.N io.R]. fold body. rewrite app_nil_l.
  destruct (Nat.leb_spec (Z.to_nat 10000) (length body)) as [Hlong|Hshort].
  - eexists _, _, _. split; [reflexivity|]. split; [reflexivity|].
    assert (Hlen : length (take (Z.to_nat 10000) body) = Z.to_nat 10000)
      by (rewrite length_take; lia).
    repeat split; try lia.
  - rewrite (take_ge body) by lia.
    destruct (io.final (http.Body req)) eqn:Hfinal;
      (eexists _, _, _; split; [reflexivity|]; split; [reflexivity|];
       repeat split; simpl; try lia; congruence).
Qed.

(** The theorem at a body of 10001 bytes that arrives in one piece. *)
Lemma BodyBytes_capped_witness :
  let req :=
    {| http.Method := "POST"; http.URL := sample.target "/post" "";
       http.Header := {[ "Content-Length" := ["3"] ]};
       http.Body := {| io.pending := [replicate (Z.to_nat 10001) Byte.x61];
                       io.final := EOF |};
       http.Host := "example.org"; http.Form := ∅;
       http.RemoteAddr := "192.0.2.7:51234" |} in
  let grow := fun c => (2 * c + 1)%nat in
  let fuel := Z.to_nat 10003 in
  exists bytes ex' out',
    exchange.BodyBytes grow fuel
      (exchange.New sample.writer req (sample.config "")) []
    = Some (bytes, ex', out')
    /\ Z.of_nat (length bytes) = 10000 /\ out' = [].
Proof.
  cbv zeta.
  destruct (BodyBytes_capped (fun c => (2 * c + 1)%nat) (Z.to_nat 10003)
              sample.writer
              {| http.Method := "POST"; http.URL := sample.target "/post" "";
                 http.Header := {[ "Content-Length" := ["3"] ]};
                 http.Body :=
                   {| io.pending := [replicate (Z.to_nat 10001) Byte.x61];
                      io.final := EOF |};
                 http.Host := "example.org"; http.Form := ∅;
                 http.RemoteAddr := "192.0.2.7:51234" |}
              (sample.config "") [])
    as (bytes & ex' & out' & HB & _ & _ & Hlong & _).
  - intros c. lia.
  - unfold reads, content. cbn [http.Body io.pending concat length].
    rewrite app_nil_r, length_replicate. lia.
  - exists bytes, ex', out'. split; [exact HB|].
    apply Hlong. unfold content. cbn [http.Body io.pending concat].
    rewrite app_nil_r, length_replicate. lia.
Defined.

(** ** The theorems at sample requests *)

(** C1 at a request with two [Origin] headers: the last one is echoed. *)
Lemma New_cors_headers_witness :
  let req := sample.get "/get" ""
               [("Origin", ["https://a.example"; "https://b.example"])]
               "192.0.2.7:51234" in
  let h := http.Headers (exchange.ResponseWriter
                           (exchange.New sample.writer req (sample.config ""))) in
  textproto.Get h "Access-Control-Allow-Origin" = "https://b.example"
  /\ textproto.Get h "Access-Control-Allow-Credentials" = "true".
Proof.
  cbv zeta.
  destruct (proj1 (New_cors_headers sample.writer
                     (sample.get "/get" ""
                        [("Origin", ["https://a.example"; "https://b.example"])]
                        "192.0.2.7:51234")
                     (sample.config ""))) as (_ & HO & _ & _ & HC).
  - vm_compute. discriminate.
  - split; [rewrite HO; vm_compute; reflexivity | exact HC].
Defined.

(** C5 at the queries [x=1&x=2], [x=1] and [y=3]. *)
Lemma singleParam_results_witness :
  let ex q := exchange.New sample.writer
                (sample.get "/get" q [] "192.0.2.7:51234") (sample.config "") in
  exchange.QueryParamSingle (ex "x=1&x=2") "x"
  = ("", Some (Errorf "too many values for param %q, expected only one" ["x"]))
  /\ exchange.QueryParamSingle (ex "x=1") "x" = ("1", None)
  /\ exchange.QueryParamSingle (ex "y=3") "x"
     = ("", Some (Errorf "missing required param %q" ["x"])).
Proof.
  cbv zeta. split; [|split].
  - apply (proj1 (proj2 (proj2 (singleParam_results (fun s => s)
                                  (exchange.New sample.writer
                                     (sample.get "/get" "x=1&x=2" []
                                        "192.0.2.7:51234")
                                     (sample.config "")) "x")))).
    vm_compute. lia.
  - apply (proj1 (proj2 (singleParam_results (fun s => s)
                           (exchange.New sample.writer
                              (sample.get "/get" "x=1" [] "192.0.2.7:51234")
                              (sample.config "")) "x"))).
    vm_compute. reflexivity.
  - apply (proj1 (singleParam_results (fun s => s)
                    (exchange.New sample.writer
                       (sample.get "/get" "y=3" [] "192.0.2.7:51234")
                       (sample.config "")) "x")).
    vm_compute. reflexivity.
Defined.

(** C6 at the target [/foo] under the prefix [/api]. *)
Lemma Redirect_response_witness :
  let ex := exchange.New sample.writer
              (sample.get "/api/redirect" "" [] "192.0.2.7:51234")
              (sample.config "/api") in
  let w' := exchange.ResponseWriter
              (fst (exchange.Redirect (fun s => s) ex "/foo" [])) in
  textproto.Get (http.Headers w') "Location" = "/api/foo"
  /\ http.Status w' = Some 302
  /\ strings.Contains (http.Written w')
       ("<a href=" +:+ String dquote ("/api/foo" +:+ String dquote
          ">/api/foo</a>")) = true.
Proof.
  cbv zeta.
  destruct (Redirect_response (fun s => s)
              (exchange.New sample.writer
                 (sample.get "/api/redirect" "" [] "192.0.2.7:51234")
                 (sample.config "/api")) "/foo" [])
    as (_ & HL & _ & HS & _).
  split; [rewrite HL; vm_compute; reflexivity|].
  split; [apply HS; vm_compute; reflexivity | vm_compute; reflexivity].
Defined.

(** C7 at the path [/api/x] under the prefix [/api]. *)
Lemma New_Path_trimmed_witness :
  let ex := exchange.New sample.writer
              (sample.get "/api/x" "" [] "192.0.2.7:51234")
              (sample.config "/api") in
  "/api/x" = "/api" +:+ url.Path (exchange.URL ex)
  /\ strings.Contains (url.Path (exchange.URL ex)) "/api" = false.
Proof.
  cbv zeta.
  destruct (New_Path_trimmed sample.writer
              (sample.get "/api/x" "" [] "192.0.2.7:51234")
              (sample.config "/api")) as (H1 & _ & H3).
  split.
  - apply H1. vm_compute. reflexivity.
  - apply H3; [discriminate|].
    intros a b H. destruct a as [|c a]; [reflexivity | exfalso].
    cbn [http.URL sample.get sample.target url.Path] in H.
    rewrite sapp_cons in H. injection H as _ H.
    assert (Hc : strings.Contains "api/x" "/api" = true)
      by (apply Contains_iff; eauto).
    vm_compute in Hc. discriminate.
Defined.

(** C8 at a request forwarded as [https] and, without the header, at an
    environment with and without a certificate. *)
Lemma FindScheme_cases_witness :
  let ex h := exchange.New sample.writer
                (sample.get "/get" "" h "192.0.2.7:51234") (sample.config "") in
  exchange.FindScheme ∅ (ex [("X-Httpbun-Forwarded-Proto", ["https"])]) = "https"
  /\ exchange.FindScheme {[ "HTTPBUN_SSL_CERT" := "/etc/cert.pem" ]} (ex []) = "https"
  /\ exchange.FindScheme ∅ (ex []) = "http".
Proof.
  cbv zeta. split; [|split].
  - apply (proj1 (proj2 (FindScheme_cases ∅
       (exchange.New sample.writer
          (sample.get "/get" "" [("X-Httpbun-Forwarded-Proto", ["https"])]
             "192.0.2.7:51234") (sample.config ""))))).
    vm_compute. reflexivity.
  - apply (proj1 (proj2 (proj2 (FindScheme_cases
       {[ "HTTPBUN_SSL_CERT" := "/etc/cert.pem" ]}
       (exchange.New sample.writer
          (sample.get "/get" "" [] "192.0.2.7:51234") (sample.config "")))))).
    + vm_compute. reflexivity.
    + vm_compute. discriminate.
  - apply (proj2 (proj2 (proj2 (FindScheme_cases ∅
       (exchange.New sample.writer
          (sample.get "/get" "" [] "192.0.2.7:51234") (sample.config "")))))).
    + vm_compute. reflexivity.
    + vm_compute. reflexivity.
Defined.

(** C9 at a forwarded request, at a peer with an IPv6 address and at a
    peer address without a port. *)
Lemma FindIncomingIPAddress_cases_witness :
  let ex h addr := exchange.New sample.writer (sample.get "/ip" "" h addr)
                     (sample.config "") in
  exchange.FindIncomingIPAddress
    (ex [("X-Httpbun-Forwarded-For", ["203.0.113.9"])] "192.0.2.7:51234") []
  = ("203.0.113.9", [])
  /\ exchange.FindIncomingIPAddress (ex [] "[2001:db8:0:0:0:0:0:1]:443") []
     = ("2001:db8::1", [])
  /\ exchange.FindIncomingIPAddress (ex [] "192.0.2.7") []
     = ("", [log_Printf "Unable to read IP from address %q."
               [VString "192.0.2.7"]]).
Proof.
  cbv zeta. split; [|split].
  - apply (proj1 (FindIncomingIPAddress_cases
       (exchange.New sample.writer
          (sample.get "/ip" "" [("X-Httpbun-Forwarded-For", ["203.0.113.9"])]
             "192.0.2.7:51234") (sample.config "")) [])).
    vm_compute. discriminate.
  - refine (proj2 (proj2 (proj2 (FindIncomingIPAddress_cases
       (exchange.New sample.writer
          (sample.get "/ip" "" [] "[2001:db8:0:0:0:0:0:1]:443")
          (sample.config "")) []))) _ "2001:db8:0:0:0:0:0:1" "443"
       [32; 1; 13; 184; 0; 0; 0; 0; 0; 0; 0; 0; 0; 0; 0; 1]%nat _ _);
      vm_compute; reflexivity.
  - refine (proj1 (proj2 (FindIncomingIPAddress_cases
       (exchange.New sample.writer
          (sample.get "/ip" "" [] "192.0.2.7") (sample.config "")) []))
       _ (AddrError "missing port in address" "192.0.2.7") _);
      vm_compute; reflexivity.
Defined.

(** C4 at the pattern [^/items/(?P<id>[0-9]+)$] and the path
    [/items/42]: the field [id] is [42]. *)
Lemma MatchAndLoadFields_result_witness :
  let ex := exchange.New sample.writer
              (sample.get "/items/42" "" [] "192.0.2.7:51234")
              (sample.config "") in
  exists ex',
    exchange.MatchAndLoadFields ex (regexp.MustCompile sample.items)
    = Some (ex', true)
    /\ exchange.Field ex' "id" = "42"
    /\ regexp.MatchesAll
         (regexp.Concat (regexp.literal "/items/")
            (regexp.Capture "id"
               (regexp.Concat (regexp.CharClass [("0", "9")]%char)
                  (regexp.Star [("0", "9")]%char))))
         "/items/42".
Proof.
  cbv zeta.
  destruct (MatchAndLoadFields_result (regexp.MustCompile sample.items)
              (exchange.New sample.writer
                 (sample.get "/items/42" "" [] "192.0.2.7:51234")
                 (sample.config ""))
              (MustCompile_WellFormed sample.items))
    as (ex' & ok & HM & _ & Hfield & _ & _ & Hfrag).
  destruct (Hfield ["/items/42"; "42"] 1%nat "id") as (v & Hv & _ & HF).
  - vm_compute. reflexivity.
  - vm_compute. reflexivity.
  - discriminate.
  - intros j Hj. do 2 (destruct j as [|j]; [lia|]). vm_compute.
    destruct j; discriminate.
  - assert (Hok : ok = true) by (vm_compute in HM; now inversion HM).
    exists ex'. split; [congruence|]. split.
    + rewrite HF. now inversion Hv.
    + apply (proj2 (Hfrag sample.items eq_refl eq_refl) _ eq_refl).
      exact Hok.
Defined.

(** ** The library models at sample inputs *)

Example strings_examples :
  textproto.CanonicalMIMEHeaderKey "access-control-ALLOW-origin"
  = "Access-Control-Allow-Origin"
  /\ textproto.CanonicalMIMEHeaderKey "x-httpbun-forwarded-for"
     = "X-Httpbun-Forwarded-For"
  /\ textproto.CanonicalMIMEHeaderKey "a b" = "a b"
  /\ strings.LastIndexByte "a:b:c" ":" = 3
  /\ strings.IndexByte "a:b:c" ":" = 1
  /\ strings.IndexByte "abc" ":" = -1
  /\ strings.CutByte "a=b=c" "=" = ("a", "b=c", true)
  /\ strings.TrimPrefix "/api/api/x" "/api" = "/api/x"
  /\ strings.TrimPrefix "/x/api" "/api" = "/x/api"
  /\ strings.Contains "/ap/x" "/api" = false.
Proof. vm_compute. repeat split. Qed.

Example fmt_examples :
  fmt.Sprintf (fun s => s) "<a href=%q>%s</a> 100%%" ["a\c"; "<x>"]
  = "<a href=" +:+ String dquote ("a\\c" +:+ String dquote "><x></a> 100%")
  /\ strconv.Quote (fun _ => "?")
       (String "a" (String (ascii_of_nat 200) (String (ascii_of_nat 201)
          (String (ascii_of_nat 10) "z"))))
     = String dquote ("a?\nz" +:+ String dquote "")
  /\ html.EscapeString "<a&b>" = "&lt;a&amp;b&gt;"
  /\ fmt.Sprintf (fun s => s) "%s and %d%" ["a"; "b"; "c"; "d"]
     = "a and %!d(string=b)%!(NOVERB)%!(EXTRA string=c, string=d)"
  /\ fmt.Sprintf (fun s => s) "%x %X %T %s" ["hi"; "J~"; "x"]
     = "6869 4A7E string %!s(MISSING)".
Proof. vm_compute. repeat split. Qed.

Example Query_examples :
  url.Query (sample.target "/get" "x=1&x=2&y=a%20b+c&&z&bad=%zz&k;v=1")
  = {[ "x" := ["1"; "2"]; "y" := ["a b c"]; "z" := [""] ]}.
Proof. vm_compute. reflexivity. Qed.

Example net_examples :
  net.SplitHostPort "1.2.3.4:80" = inl ("1.2.3.4", "80")
  /\ net.SplitHostPort "[::1]:8080" = inl ("::1", "8080")
  /\ net.SplitHostPort "localhost:80" = inl ("localhost", "80")
  /\ net.SplitHostPort "1.2.3.4" = inr (AddrError "missing port in address" "1.2.3.4")
  /\ net.SplitHostPort "::1:80" = inr (AddrError "too many colons in address" "::1:80")
  /\ net.SplitHostPort "[::1]" = inr (AddrError "missing port in address" "[::1]")
  /\ net.SplitHostPort "[::1]x:80" = inr (AddrError "missing port in address" "[::1]x:80")
  /\ net.SplitHostPort "[::1]:x:80" = inr (AddrError "too many colons in address" "[::1]:x:80")
  /\ net.SplitHostPort "a[b:80" = inr (AddrError "unexpected '[' in address" "a[b:80")
  /\ net.SplitHostPort ":80" = inl ("", "80")
  /\ option_map net.IP_String (net.ParseIP "1.2.3.4") = Some "1.2.3.4"
  /\ option_map net.IP_String (net.ParseIP "::1") = Some "::1"
  /\ option_map net.IP_String (net.ParseIP "::") = Some "::"
  /\ option_map net.IP_String (net.ParseIP "::ffff:1.2.3.4") = Some "1.2.3.4"
  /\ option_map net.IP_String (net.ParseIP "2001:0db8:0:0:1:0:0:1") = Some "2001:db8::1:0:0:1"
  /\ option_map net.IP_String (net.ParseIP "2001:DB8::") = Some "2001:db8::"
  /\ option_map net.IP_String (net.ParseIP "1:2:3:4:5:6:7:8") = Some "1:2:3:4:5:6:7:8"
  /\ option_map net.IP_String (net.ParseIP "1:0:0:4:5:6:7:8") = Some "1::4:5:6:7:8"
  /\ option_map net.IP_String (net.ParseIP "1:2:3:4:5:6:0:0") = Some "1:2:3:4:5:6::"
  /\ option_map net.IP_String (net.ParseIP "fe80::1:2.3.4.5") = Some "fe80::1:203:405"
  /\ option_map net.IP_String (net.ParseIP "1:2:3:4:5:6:7::") = Some "1:2:3:4:5:6:7:0"
  /\ net.ParseIP "1:2:3:4:5:6:7:8::" = None
  /\ net.ParseIP "::1:2:3:4:5:6:7:8" = None
  /\ option_map net.IP_String (net.ParseIP "::2:3:4:5:6:7:8") = Some "0:2:3:4:5:6:7:8"
  /\ option_map net.IP_String (net.ParseIP "0:0:1:0:0:0:1:0") = Some "0:0:1::1:0"
  /\ net.ParseIP "1:2:3:4:5:6:7:" = None
  /\ net.ParseIP ":1:2:3:4:5:6:7" = None
  /\ net.ParseIP "1:2:3:4:5:6:1.2.3.4" <> None
  /\ net.ParseIP "1:2:3:4:5:1.2.3.4" = None
  /\ net.ParseIP "1:2:3:4:5:6:7:1.2.3.4" = None
  /\ net.ParseIP "1:2:3:4:5:6:7:8:9" = None
  /\ net.ParseIP "1::2::3" = None
  /\ net.ParseIP "12345::" = None
  /\ net.ParseIP "fe80::1%eth0" = None
  /\ net.ParseIP "localhost" = None
  /\ net.ParseIP "1.2.3" = None
  /\ net.ParseIP "1.2.3.04" = None
  /\ net.ParseIP "1.2.3.256" = None
  /\ net.ParseIP "1.2.3.4.5" = None
  /\ net.ParseIP "" = None
  /\ net.ParseIP "1.2.3.4:5" = None.
Proof. vm_compute. repeat split; discriminate. Qed.

(** ** Further properties of [New] *)

Lemma lookup_New_echo_eq (from to : string) (ex : exchange.Exchange) :
  textproto.Get (http.Header (exchange.Request ex)) from <> "" ->
  http.Headers (exchange.ResponseWriter (New_echo from to ex))
    !! textproto.CanonicalMIMEHeaderKey to
  = Some [textproto.Get (http.Header (exchange.Request ex)) from].
Proof.
  intros Hne. unfold New_echo. cbv zeta.
  apply String.eqb_neq in Hne. rewrite Hne. cbn [negb].
  rewrite Headers_setHeader. apply lookup_insert_eq.
Qed.

Lemma Request_New_origin_host (w : http.ResponseWriter) (req : http.Request)
  (serverSpec : spec.Spec) :
  exchange.Request (New_origin (New_host (New_base w req serverSpec) req))
  = req.
Proof.
  destruct (same_New_origin (New_host (New_base w req serverSpec) req))
    as (-> & _).
  unfold New_host. now destruct (_ && _).
Qed.

(** X1.  The host of the derived URL is the host of the request URL when
    that is not empty, and the [Host] of the request otherwise; so it is
    not empty when the request has a [Host]. *)
Theorem New_Host (w : http.ResponseWriter) (req : http.Request)
  (serverSpec : spec.Spec) :
  let host := url.Host (exchange.URL (exchange.New w req serverSpec)) in
  host = (if String.eqb (url.Host (http.URL req)) "" then http.Host req
          else url.Host (http.URL req))
  /\ (http.Host req <> "" -> host <> "").
Proof.
  intros host. subst host.
  destruct (same_New w req serverSpec) as (_ & _ & _ & -> & _).
  unfold New_host. cbn [New_base exchange.URL url.Host].
  destruct (String.eqb_spec (url.Host (http.URL req)) "") as [He|Hne];
    destruct (String.eqb_spec (http.Host req) "") as [Hh|Hh]; cbn [andb negb];
    cbn [exchange.set_URL exchange.set_Host exchange.URL url.Host New_base];
    split; try intros ?; congruence.
Qed.

(** X2.  After [New] the response header [X-Powered-By] is [httpbun/]
    followed by the commit of the configuration, and a non-empty request
    header [Access-Control-Request-Headers] or
    [Access-Control-Request-Method] is echoed as
    [Access-Control-Allow-Headers] resp. [Access-Control-Allow-Methods]. *)
Theorem New_echoed_headers (w : http.ResponseWriter) (req : http.Request)
  (serverSpec : spec.Spec) :
  let h := http.Headers (exchange.ResponseWriter (exchange.New w req serverSpec)) in
  let headers := textproto.Get (http.Header req) "Access-Control-Request-Headers" in
  let method := textproto.Get (http.Header req) "Access-Control-Request-Method" in
  h !! "X-Powered-By" = Some ["httpbun/" +:+ spec.Commit serverSpec]
  /\ (headers <> "" -> h !! "Access-Control-Allow-Headers" = Some [headers])
  /\ (method <> "" -> h !! "Access-Control-Allow-Methods" = Some [method]).
Proof.
  destruct canonical_keys as (_ & _ & Hh & Hm & Hp & _).
  intros h headers method. subst h. rewrite New_stages.
  split; [|split].
  - rewrite Headers_setHeader, Hp. apply lookup_insert_eq.
  - intros Hne.
    rewrite lookup_setHeader_ne by (rewrite Hp; discriminate).
    rewrite lookup_New_echo by (rewrite Hm; discriminate).
    pose proof (lookup_New_echo_eq "Access-Control-Request-Headers"
                  "Access-Control-Allow-Headers"
                  (New_origin (New_host (New_base w req serverSpec) req)))
      as H.
    rewrite Request_New_origin_host, Hh in H. exact (H Hne).
  - intros Hne.
    rewrite lookup_setHeader_ne by (rewrite Hp; discriminate).
    pose proof (lookup_New_echo_eq "Access-Control-Request-Method"
                  "Access-Control-Allow-Methods"
                  (New_echo "Access-Control-Request-Headers"
                     "Access-Control-Allow-Headers"
                     (New_origin (New_host (New_base w req serverSpec) req))))
      as H.
    destruct (same_New_echo "Access-Control-Request-Headers"
                "Access-Control-Allow-Headers"
                (New_origin (New_host (New_base w req serverSpec) req)))
      as (HR & _).
    rewrite HR, Request_New_origin_host, Hm in H. exact (H Hne).
Qed.

(** X1 and X2 at a preflight request for the host [example.org]. *)
Lemma New_Host_witness :
  url.Host (exchange.URL
    (exchange.New sample.writer
       (sample.get "/get" "" [] "192.0.2.7:51234") (sample.config "")))
  = "example.org".
Proof.
  rewrite (proj1 (New_Host sample.writer
                    (sample.get "/get" "" [] "192.0.2.7:51234")
                    (sample.config ""))).
  reflexivity.
Defined.

Lemma New_echoed_headers_witness :
  let h := http.Headers (exchange.ResponseWriter
             (exchange.New sample.writer
                (sample.get "/get" ""
                   [("Access-Control-Request-Headers", ["X-Token"]);
                    ("Access-Control-Request-Method", ["PUT"])]
                   "192.0.2.7:51234")
                (sample.config ""))) in
  h !! "X-Powered-By" = Some ["httpbun/abc123"]
  /\ h !! "Access-Control-Allow-Headers" = Some ["X-Token"]
  /\ h !! "Access-Control-Allow-Methods" = Some ["PUT"].
Proof.
  cbv zeta.
  destruct (New_echoed_headers sample.writer
              (sample.get "/get" ""
                 [("Access-Control-Request-Headers", ["X-Token"]);
                  ("Access-Control-Request-Method", ["PUT"])]
                 "192.0.2.7:51234")
              (sample.config "")) as (HP & HH & HM).
  split; [exact HP|]. split.
  - rewrite HH; [vm_compute; reflexivity | vm_compute; discriminate].
  - rewrite HM; [vm_compute; reflexivity | vm_compute; discriminate].
Defined.

(** A request for [/items/42] reaches the handler with the field [id]
    set to [42]; a request for [/items/x] is answered with 404. *)
Example dispatch_examples :
  option_map (fun r => (http.Status (fst r), http.Written (fst r)))
    (server.ServeHTTP sample.itemServer sample.writer
       (sample.get "/items/42" "" [] "192.0.2.7:51234") [])
  = Some (Some 200, "42")
  /\ option_map (fun r => http.Status (fst r))
       (server.ServeHTTP sample.itemServer sample.writer
          (sample.get "/items/x" "" [] "192.0.2.7:51234") [])
     = Some (Some 404).
Proof. vm_compute. split; reflexivity. Qed.

(* ================================================================== *)
(** * Further properties *)

(** ** Integers in the query *)

Lemma isDigits_string_of_uint (d : Decimal.uint) :
  strconv.isDigits (NilEmpty.string_of_uint d) = true.
Proof. induction d; cbn; auto. Qed.

Lemma digitsValue_of_uint_acc (d : Decimal.uint) :
  forall acc : positive,
    strconv.digitsValue (Z.pos acc) (NilEmpty.string_of_uint d)
    = Z.pos (Pos.of_uint_acc d acc).
Proof.
  induction d; intros acc;
    cbn [NilEmpty.string_of_uint strconv.digitsValue Pos.of_uint_acc];
    [reflexivity | ..];
    match goal with
    | |- strconv.digitsValue ?a _ = Z.pos (Pos.of_uint_acc _ ?p) =>
        replace a with (Z.pos p)
          by (rewrite ?Pos2Z.inj_add, ?Pos2Z.inj_mul;
              set (x := Z.of_nat _); vm_compute in x; subst x; lia)
    end; apply IHd.
Qed.

Lemma digitsValue_of_uint (d : Decimal.uint) :
  strconv.digitsValue 0 (NilEmpty.string_of_uint d) = Z.of_N (Pos.of_uint d).
Proof.
  induction d; cbn [NilEmpty.string_of_uint strconv.digitsValue Pos.of_uint];
    [reflexivity | exact IHd | ..];
    match goal with
    | |- strconv.digitsValue ?a _ = Z.of_N (N.pos (Pos.of_uint_acc _ ?p)) =>
        change a with (Z.pos p)
    end; apply digitsValue_of_uint_acc.
Qed.

(** The decimal text of a positive number: digits, the first of which
    is no sign, that write the number. *)
Lemma digits_to_uint (p : positive) :
  exists c s, NilZero.string_of_uint (Pos.to_uint p) = String c s
    /\ c <> "-"%char /\ c <> "+"%char
    /\ strconv.isDigits (String c s) = true
    /\ strconv.digitsValue 0 (String c s) = Z.pos p.
Proof.
  pose proof (DecimalPos.Unsigned.to_uint_nonnil p) as Hnil.
  pose proof (DecimalPos.Unsigned.of_to p) as Hof.
  pose proof (isDigits_string_of_uint (Pos.to_uint p)) as Hd.
  pose proof (digitsValue_of_uint (Pos.to_uint p)) as Hv.
  rewrite Hof in Hv.
  destruct (Pos.to_uint p); [contradiction | ..];
    cbn [NilZero.string_of_uint NilEmpty.string_of_uint] in *;
    eexists _, _; (split; [reflexivity|]);
    repeat split; try discriminate; assumption.
Qed.

(** [strconv.Atoi] reads back the decimal text of an [int]. *)
Lemma Atoi_decimal (n : Z) :
  - 2 ^ 63 <= n < 2 ^ 63 -> strconv.Atoi (decimal n) = Some n.
Proof.
  intros Hn. unfold decimal. destruct n as [|p|p].
  - reflexivity.
  - cbn [Z.to_int NilZero.string_of_int].
    destruct (digits_to_uint p) as (c & s & -> & Hm & Hp & Hd & Hv).
    unfold strconv.Atoi.
    assert (E : match String c s with
                | String "-" rest => (true, rest)
                | String "+" rest => (false, rest)
                | _ => (false, String c s)
                end = (false, String c s)).
    { destruct c as [[] [] [] [] [] [] [] []]; try reflexivity; congruence. }
    rewrite E, Hd, Hv.
    destruct (Z.leb_spec (- 2 ^ 63) (Z.pos p)); [|lia].
    destruct (Z.ltb_spec (Z.pos p) (2 ^ 63)); [reflexivity | lia].
  - cbn [Z.to_int NilZero.string_of_int].
    destruct (digits_to_uint p) as (c & s & -> & Hm & Hp & Hd & Hv).
    unfold strconv.Atoi. rewrite Hd, Hv.
    change (- Z.pos p) with (Z.neg p).
    destruct (Z.leb_spec (- 2 ^ 63) (Z.neg p)); [|lia].
    destruct (Z.ltb_spec (Z.neg p) (2 ^ 63)); [reflexivity | lia].
Qed.

(** What [strconv.Atoi] returns is an [int]. *)
Lemma Atoi_range (s : string) (n : Z) :
  strconv.Atoi s = Some n -> - 2 ^ 63 <= n < 2 ^ 63.
Proof.
  unfold strconv.Atoi.
  destruct (match s with
            | String "-" rest => (true, rest)
            | String "+" rest => (false, rest)
            | _ => (false, s)
            end) as [neg digits].
  destruct digits as [|c digits]; [discriminate|].
  destruct (strconv.isDigits _); [|discriminate].
  set (v := if neg then _ else _).
  destruct (Z.leb_spec (- 2 ^ 63) v) as [Hlo|]; [|discriminate].
  destruct (Z.ltb_spec v (2 ^ 63)) as [Hhi|]; [|discriminate].
  intros Heq. inversion Heq; subst n. lia.
Qed.

(** X3.  [QueryParamInt(name, value)] returns the default [value] and no
    error when the query has no value for [name].  When it has values,
    only the first one counts and the default is not used: the decimal
    text of an [int] gives that number; whatever the first value, the
    result is either the [int] it writes, or 0 together with the error
    [<name> must be an integer]; an empty first value gives the
    error. *)
Theorem QueryParamInt_cases (ex : exchange.Exchange) (name : string)
  (value : Z) :
  let values :=
    url.index (url.Query (http.URL (exchange.Request ex))) name in
  let failure := (0, Some (Errorf "%s must be an integer" [name])) in
  (values = [] -> exchange.QueryParamInt ex name value = (value, None))
  /\ (forall n rest,
        - 2 ^ 63 <= n < 2 ^ 63 -> values = decimal n :: rest ->
        exchange.QueryParamInt ex name value = (n, None))
  /\ (forall first rest,
        values = first :: rest ->
        (exists n, strconv.Atoi first = Some n /\ - 2 ^ 63 <= n < 2 ^ 63
                   /\ exchange.QueryParamInt ex name value = (n, None))
        \/ (strconv.Atoi first = None
            /\ exchange.QueryParamInt ex name value = failure))
  /\ (forall rest,
        values = "" :: rest ->
        exchange.QueryParamInt ex name value = failure).
Proof.
  intros values failure. unfold exchange.QueryParamInt. cbv zeta.
  fold values. split; [|split; [|split]].
  - now intros ->.
  - intros n rest Hn ->. now rewrite Atoi_decimal.
  - intros first rest ->.
    destruct (strconv.Atoi first) as [n|] eqn:Ha.
    + left. exists n. split; [reflexivity|].
      split; [now apply (Atoi_range first) | reflexivity].
    + right. now split.
  - now intros rest ->.
Qed.

(** The query [n=42&n=x]: the first value counts. *)
Lemma QueryParamInt_cases_witness :
  exchange.QueryParamInt
    (exchange.New sample.writer
       (sample.get "/range" "n=42&n=x" [] "192.0.2.7:51234")
       (sample.config ""))
    "n" 7
  = (42, None).
Proof.
  apply (proj1 (proj2 (QueryParamInt_cases
                         (exchange.New sample.writer
                            (sample.get "/range" "n=42&n=x" []
                               "192.0.2.7:51234")
                            (sample.config ""))
                         "n" 7)) 42 ["x"]).
  - lia.
  - vm_compute. reflexivity.
Defined.

(** ** The headers shown to the client *)

Lemma exposeHeader_None (name : string) (values : list string)
  (acc : option (gmap string exchange.any)) :
  acc = None \/ (strings.HasPrefix name "X-Httpbun-" = false /\ values = []) ->
  exchange.exposeHeader name values acc = None.
Proof.
  intros [->|[Hn ->]]; [reflexivity|].
  unfold exchange.exposeHeader. destruct acc; [|reflexivity].
  now rewrite Hn.
Qed.

(** The loop of [ExposableHeadersMap] over a header map: the result
    depends on the entries of the map only. *)
Lemma ExposableHeadersMap_fold (h : textproto.MIMEHeader) :
  ((exists name, strings.HasPrefix name "X-Httpbun-" = false
                 /\ h !! name = Some []) ->
   map_fold exchange.exposeHeader (Some ∅) h = None)
  /\ ((forall name, strings.HasPrefix name "X-Httpbun-" = false ->
         h !! name <> Some []) ->
      exists m,
        map_fold exchange.exposeHeader (Some ∅) h = Some m
        /\ forall name,
             m !! name
             = if strings.HasPrefix name "X-Httpbun-" then None
               else match h !! name with
                    | None => None
                    | Some values =>
                        if (1 <? length values)%nat
                        then Some (exchange.AnyStrings values)
                        else option_map exchange.AnyString (head values)
                    end).
Proof.
  apply (map_fold_weak_ind
    (fun (r : option (gmap string exchange.any)) (h : textproto.MIMEHeader) =>
      ((exists name, strings.HasPrefix name "X-Httpbun-" = false
                     /\ h !! name = Some []) -> r = None)
      /\ ((forall name, strings.HasPrefix name "X-Httpbun-" = false ->
             h !! name <> Some []) ->
          exists m,
            r = Some m
            /\ forall name,
                 m !! name
                 = if strings.HasPrefix name "X-Httpbun-" then None
                   else match h !! name with
                        | None => None
                        | Some values =>
                            if (1 <? length values)%nat
                            then Some (exchange.AnyStrings values)
                            else option_map exchange.AnyString (head values)
                        end))).
  - split.
    + intros (name & _ & H). now rewrite lookup_empty in H.
    + intros _. exists ∅. split; [reflexivity|]. intros name.
      rewrite !lookup_empty. now destruct (strings.HasPrefix _ _).
  - intros i x m r Hi [IHbad IHgood]. split.
    + intros (name & Hn & Hl). apply exposeHeader_None.
      destruct (decide (i = name)) as [->|Hne].
      * rewrite lookup_insert_eq in Hl. right. split; [exact Hn | congruence].
      * rewrite lookup_insert_ne in Hl by exact Hne. left. apply IHbad. eauto.
    + intros Hgood.
      destruct IHgood as (mm & -> & Hmm).
      { intros name Hn Hl. apply (Hgood name Hn).
        rewrite lookup_insert_ne; [exact Hl|]. intros ->. congruence. }
      unfold exchange.exposeHeader.
      destruct (strings.HasPrefix i "X-Httpbun-") eqn:Hpi; cbn [negb].
      * exists mm. split; [reflexivity|]. intros name. rewrite Hmm.
        destruct (decide (i = name)) as [->|Hne].
        -- now rewrite Hpi.
        -- now rewrite lookup_insert_ne by exact Hne.
      * destruct (Nat.ltb_spec 1 (length x)) as [Hlen|Hlen].
        -- eexists. split; [reflexivity|]. intros name.
           destruct (decide (i = name)) as [->|Hne].
           ++ rewrite !lookup_insert_eq, Hpi.
              destruct (Nat.ltb_spec 1 (length x)); [reflexivity | lia].
           ++ rewrite !lookup_insert_ne by exact Hne. apply Hmm.
        -- destruct x as [|v x].
           { exfalso. apply (Hgood i Hpi). apply lookup_insert_eq. }
           eexists. split; [reflexivity|]. intros name.
           destruct (decide (i = name)) as [->|Hne].
           ++ rewrite !lookup_insert_eq, Hpi.
              destruct (Nat.ltb_spec 1 (length (v :: x))); [lia | reflexivity].
           ++ rewrite !lookup_insert_ne by exact Hne. apply Hmm.
Qed.

(** X4.  [ExposableHeadersMap] panics when a request header whose name
    does not start with [X-Httpbun-] has an empty list of values.
    Otherwise it returns a map that has no entry for a name that starts
    with [X-Httpbun-] or that the request does not have, the value
    itself for a header with one value, and the list of the values for
    a header with more than one. *)
Theorem ExposableHeadersMap_entries (ex : exchange.Exchange) :
  let h := http.Header (exchange.Request ex) in
  ((exists name, strings.HasPrefix name "X-Httpbun-" = false
                 /\ h !! name = Some []) ->
   exchange.ExposableHeadersMap ex = None)
  /\ ((forall name, strings.HasPrefix name "X-Httpbun-" = false ->
         h !! name <> Some []) ->
      exists m,
        exchange.ExposableHeadersMap ex = Some m
        /\ (forall name,
              strings.HasPrefix name "X-Httpbun-" = true -> m !! name = None)
        /\ (forall name, h !! name = None -> m !! name = None)
        /\ (forall name v,
              strings.HasPrefix name "X-Httpbun-" = false ->
              h !! name = Some [v] ->
              m !! name = Some (exchange.AnyString v))
        /\ (forall name values,
              strings.HasPrefix name "X-Httpbun-" = false ->
              h !! name = Some values -> (1 < length values)%nat ->
              m !! name = Some (exchange.AnyStrings values))).
Proof.
  intros h. unfold exchange.ExposableHeadersMap. fold h.
  destruct (ExposableHeadersMap_fold h) as [Hbad Hgood].
  split; [exact Hbad|].
  intros Hne. destruct (Hgood Hne) as (m & -> & Hm).
  exists m. split; [reflexivity|]. repeat split.
  - intros name Hp. now rewrite Hm, Hp.
  - intros name Hl. rewrite Hm, Hl. now destruct (strings.HasPrefix _ _).
  - intros name v Hp Hl. now rewrite Hm, Hp, Hl.
  - intros name values Hp Hl Hlen. rewrite Hm, Hp, Hl.
    destruct (Nat.ltb_spec 1 (length values)); [reflexivity | lia].
Qed.

(** A request with one [Accept] header, two [Cookie] headers and a
    forwarded address: the last is not shown. *)
Lemma ExposableHeadersMap_entries_witness :
  exists m,
    exchange.ExposableHeadersMap
      (exchange.New sample.writer
         (sample.get "/headers" ""
            [("Accept", ["*/*"]); ("Cookie", ["a=1"; "b=2"]);
             ("X-Httpbun-Forwarded-For", ["198.51.100.9"])]
            "192.0.2.7:51234")
         (sample.config ""))
    = Some m
    /\ m !! "Accept" = Some (exchange.AnyString "*/*")
    /\ m !! "Cookie" = Some (exchange.AnyStrings ["a=1"; "b=2"])
    /\ m !! "X-Httpbun-Forwarded-For" = None.
Proof.
  destruct (proj2 (ExposableHeadersMap_entries
                     (exchange.New sample.writer
                        (sample.get "/headers" ""
                           [("Accept", ["*/*"]); ("Cookie", ["a=1"; "b=2"]);
                            ("X-Httpbun-Forwarded-For", ["198.51.100.9"])]
                           "192.0.2.7:51234")
                        (sample.config ""))))
    as (m & Hm & Hhidden & _ & Hone & Hmany).
  - intros name _ Hl. rewrite New_Request in Hl.
    apply elem_of_list_to_map_2 in Hl.
    repeat (apply elem_of_cons in Hl as [Hl|Hl]; [discriminate|]).
    inversion Hl.
  - exists m. split; [exact Hm|]. split; [|split].
    + apply Hone; [reflexivity | rewrite New_Request; vm_compute; reflexivity].
    + apply Hmany; [reflexivity | rewrite New_Request; vm_compute; reflexivity
                    | simpl; lia].
    + apply Hhidden. reflexivity.
Defined.

(** ** The last value of a header *)

(** X5.  [HeaderValueLast(name)] looks the name up as it is written: it
    returns the empty string when the header map has no entry under
    [name] and the last value otherwise, where [Get] returns the first
    value under the canonical form of the name.  So in a header map
    whose keys are all canonical (as those of a request the server has
    parsed) a name in another spelling gives the empty string. *)
Theorem HeaderValueLast_literal (ex : exchange.Exchange) (name : string) :
  let h := http.Header (exchange.Request ex) in
  (h !! name = None -> exchange.HeaderValueLast ex name = "")
  /\ (forall values v, h !! name = Some (values ++ [v]) ->
        exchange.HeaderValueLast ex name = v)
  /\ (forall v values, h !! name = Some (v :: values) ->
        textproto.CanonicalMIMEHeaderKey name = name ->
        textproto.Get h name = v)
  /\ ((forall key, h !! key <> None ->
         textproto.CanonicalMIMEHeaderKey key = key) ->
      textproto.CanonicalMIMEHeaderKey name <> name ->
      exchange.HeaderValueLast ex name = "").
Proof.
  intros h. unfold exchange.HeaderValueLast, textproto.index. fold h.
  split; [|split; [|split]].
  - now intros ->.
  - intros values v ->. cbn [default from_option id]. now rewrite last_snoc.
  - intros v values Hl Hk. unfold textproto.Get, textproto.index.
    now rewrite Hk, Hl.
  - intros Hcanon Hname.
    destruct (h !! name) eqn:Hl; [|reflexivity].
    exfalso. apply Hname, Hcanon. congruence.
Qed.

(** A request with the header [Origin]: the name [origin] finds
    nothing, while [Get] finds the value under it. *)
Lemma HeaderValueLast_literal_witness :
  let ex := exchange.New sample.writer
              (sample.get "/get" "" [("Origin", ["https://a.example"])]
                 "192.0.2.7:51234")
              (sample.config "") in
  exchange.HeaderValueLast ex "origin" = ""
  /\ textproto.Get (http.Header (exchange.Request ex)) "origin"
     = "https://a.example".
Proof.
  cbv zeta. split; [|vm_compute; reflexivity].
  apply (proj2 (proj2 (proj2 (HeaderValueLast_literal
                                (exchange.New sample.writer
                                   (sample.get "/get" ""
                                      [("Origin", ["https://a.example"])]
                                      "192.0.2.7:51234")
                                   (sample.config ""))
                                "origin")))).
  - intros key Hkey. rewrite New_Request in Hkey.
    destruct (http.Header _ !! key) as [values|] eqn:Hl; [|contradiction].
    apply elem_of_list_to_map_2 in Hl.
    apply elem_of_cons in Hl as [Hl|Hl]; [|inversion Hl].
    inversion Hl. reflexivity.
  - vm_compute. discriminate.
Defined.

(** ** The Exchange a handler receives *)

(** The keys of the field map after the loop: those it had and the
    non-empty names. *)
Lemma loadFields_dom (names : list string) :
  forall i m f f', exchange.loadFields names i m f = Some f' ->
  forall key, f' !! key <> None
              <-> (f !! key <> None \/ (key <> "" /\ key ∈ names)).
Proof.
  induction names as [|name names IH]; intros i m f f' H key; simpl in H.
  - inversion H; subst f'. split; [now left|].
    intros [Hk|[_ Hin]]; [exact Hk | inversion Hin].
  - destruct (String.eqb_spec name "") as [He|Hne]; cbn [negb] in H.
    + rewrite (IH _ _ _ _ H key). split.
      * intros [Hk|[Hk Hin]]; [now left | right]. split; [exact Hk | now right].
      * intros [Hk|[Hk Hin]]; [now left | right]. split; [exact Hk|].
        apply elem_of_cons in Hin as [->|Hin]; [contradiction | exact Hin].
    + destruct (m !! i) as [v|]; [|discriminate].
      rewrite (IH _ _ _ _ H key). split.
      * intros [Hk|[Hk Hin]].
        -- destruct (decide (name = key)) as [->|Hnk].
           ++ right. split; [exact Hne | now left].
           ++ left. now rewrite lookup_insert_ne in Hk by exact Hnk.
        -- right. split; [exact Hk | now right].
      * intros [Hk|[Hk Hin]].
        -- left. destruct (decide (name = key)) as [->|Hnk].
           ++ now rewrite lookup_insert_eq.
           ++ now rewrite lookup_insert_ne by exact Hnk.
        -- apply elem_of_cons in Hin as [->|Hin].
           ++ left. now rewrite lookup_insert_eq.
           ++ right. now split.
Qed.

(** X6.  When [ServeHTTP] calls the handler of a route (the first whose
    pattern matches the derived path), the Exchange it passes is the one
    [New] built with the fields of that route loaded: the field map has
    an entry for exactly the non-empty group names of the pattern of
    that route, so [Field] is empty for every other name and nothing is
    left from the routes tried before; the request is the one received,
    the path is the request path without the prefix, the body has not
    been read, nothing has been written to the response, and the header
    [X-Powered-By] is set. *)
Theorem ServeHTTP_handler_exchange (s : server.Server)
  (w : http.ResponseWriter) (req : http.Request) (out : list output)
  (before after : list routes.Route) (route : routes.Route) :
  let derived :=
    strings.TrimPrefix (url.Path (http.URL req))
      (spec.PathPrefix (server.spec_ s)) in
  strings.HasPrefix (url.Path (http.URL req))
    (spec.PathPrefix (server.spec_ s)) = true ->
  server.routes_ s = before ++ route :: after ->
  (forall r, r ∈ before ->
     regexp.FindStringSubmatch (routes.Pat r) derived = None) ->
  regexp.FindStringSubmatch (routes.Pat route) derived <> None ->
  regexp.WellFormed (routes.Pat route) ->
  exists fields out1,
    let ex := exchange.set_Fields (exchange.New w req (server.spec_ s))
                fields in
    server.ServeHTTP s w req out
    = Some (exchange.ResponseWriter (fst (routes.Fn route ex out1)),
            snd (routes.Fn route ex out1))
    /\ (forall key,
          fields !! key <> None
          <-> key <> "" /\ key ∈ regexp.SubexpNames (routes.Pat route))
    /\ (forall key,
          key ∉ regexp.SubexpNames (routes.Pat route) ->
          exchange.Field ex key = "")
    /\ exchange.Request ex = req
    /\ url.Path (exchange.URL ex) = derived
    /\ exchange.CappedBody ex = io.LimitReader (http.Body req) 10000
    /\ http.calls (exchange.ResponseWriter ex) = http.calls w
    /\ http.Headers (exchange.ResponseWriter ex) !! "X-Powered-By"
       = Some ["httpbun/" +:+ spec.Commit (server.spec_ s)].
Proof.
  intros derived Hprefix Hroutes Hbefore Hmatch Hwf.
  set (ex0 := exchange.New w req (server.spec_ s)).
  assert (Hpath : url.Path (exchange.URL ex0) = derived) by apply New_Path.
  destruct (MatchAndLoadFields_cases ex0 (routes.Pat route) Hwf)
    as [[Hnone _] | (m & fields & _ & Hload & HM)];
    [rewrite Hpath in Hnone; contradiction|].
  destruct (exchange.FindIncomingIPAddress ex0 out) as [ip out0] eqn:Hip.
  exists fields,
    (out0 ++ [log_Printf "From ip=%s %s %s%s"
                [VString ip; VString (http.Method req);
                 VString (http.Host req); VURL (http.URL req)]]).
  cbv zeta. fold ex0.
  assert (Hdom : forall key,
            fields !! key <> None
            <-> key <> "" /\ key ∈ regexp.SubexpNames (routes.Pat route)).
  { intros key. rewrite (loadFields_dom _ _ _ _ _ Hload key).
    subst ex0. destruct (same_New w req (server.spec_ s)) as (_ & -> & _).
    assert (E : exchange.Fields
                  (New_host (New_base w req (server.spec_ s)) req) = ∅)
      by (unfold New_host; now destruct (_ && _)).
    rewrite E, lookup_empty.
    split; [intros [?|?]; [contradiction | assumption] | now right]. }
  split; [|split; [exact Hdom | split; [|repeat split]]].
  - unfold server.ServeHTTP. rewrite Hprefix. cbn [negb]. fold ex0.
    rewrite Hip, Hroutes, serveRoutes_skip
      by (rewrite Hpath; exact Hbefore).
    cbn [server.serveRoutes]. rewrite HM.
    now destruct (routes.Fn route _ _).
  - intros key Hkey. unfold exchange.Field.
    cbn [exchange.set_Fields exchange.Fields].
    destruct (fields !! key) eqn:Hl; [|reflexivity].
    exfalso. apply Hkey. apply (Hdom key). congruence.
  - apply New_Request.
  - exact Hpath.
  - apply New_CappedBody.
  - apply New_calls.
  - destruct canonical_keys as (_ & _ & _ & _ & Hp & _).
    subst ex0. cbn [exchange.set_Fields exchange.ResponseWriter].
    rewrite New_stages, Headers_setHeader, Hp. apply lookup_insert_eq.
Qed.

(** The request [/items/42] on the server with the route
    [^/items/(?P<id>[0-9]+)$]: the handler is called with the field
    [id] and with no field [name]. *)
Lemma ServeHTTP_handler_exchange_witness :
  let req := sample.get "/items/42" "" [] "192.0.2.7:51234" in
  exists fields out1,
    let ex := exchange.set_Fields
                (exchange.New sample.writer req (sample.config "")) fields in
    server.ServeHTTP sample.itemServer sample.writer req []
    = Some (exchange.ResponseWriter (fst (sample.sayField "id" ex out1)),
            snd (sample.sayField "id" ex out1))
    /\ fields !! "id" <> None
    /\ exchange.Field ex "name" = "".
Proof.
  cbv zeta.
  destruct (ServeHTTP_handler_exchange sample.itemServer sample.writer
              (sample.get "/items/42" "" [] "192.0.2.7:51234") []
              [] [] {| routes.Pat := regexp.MustCompile sample.items;
                       routes.Fn := sample.sayField "id" |})
    as (fields & out1 & Hserve & Hdom & Hfield & _).
  - reflexivity.
  - reflexivity.
  - intros r Hr. inversion Hr.
  - vm_compute. discriminate.
  - apply MustCompile_WellFormed.
  - exists fields, out1. split; [exact Hserve|]. split.
    + apply (Hdom "id"). split; [discriminate|].
      vm_compute. apply list_elem_of_In. simpl. auto.
    + apply Hfield. vm_compute. intros Hin.
      apply list_elem_of_In in Hin. simpl in Hin.
      destruct Hin as [Hin|[Hin|[]]]; discriminate.
Defined.

(** ** What is written *)

Lemma Written_Write (w : http.ResponseWriter) (data : string) :
  http.Written (fst (http.Write w data)) = http.Written w +:+ data.
Proof.
  unfold http.Written, http.Write. cbn [fst http.calls].
  induction (http.calls w) as [|c cs IH]; cbn [app fold_right].
  - now rewrite append_nil_r.
  - rewrite IH. destruct c; [reflexivity | now rewrite append_assoc].
Qed.

Lemma Written_WriteHeader (w : http.ResponseWriter) (code : Z) :
  http.Written (http.WriteHeader w code) = http.Written w.
Proof.
  unfold http.Written, http.WriteHeader. cbn [http.calls].
  induction (http.calls w) as [|c cs IH]; cbn [app fold_right];
    [reflexivity|]. now rewrite IH.
Qed.

Lemma Written_Error (w : http.ResponseWriter) (err : string) (code : Z) :
  http.Written (http.Error w err code)
  = http.Written w +:+ err +:+ exchange.newline.
Proof.
  unfold http.Error. cbv zeta. rewrite Written_Write, Written_WriteHeader.
  reflexivity.
Qed.

Lemma Headers_Error (w : http.ResponseWriter) (err : string) (code : Z) :
  http.Headers (http.Error w err code)
  = <["X-Content-Type-Options" := ["nosniff"]]>
      (<["Content-Type" := ["text/plain; charset=utf-8"]]>
         (delete "Content-Length" (http.Headers w))).
Proof. reflexivity. Qed.

Lemma lookup_Error (w : http.ResponseWriter) (err : string) (code : Z)
  (key : string) :
  key <> "Content-Length" -> key <> "Content-Type" ->
  key <> "X-Content-Type-Options" ->
  http.Headers (http.Error w err code) !! key = http.Headers w !! key.
Proof.
  intros H1 H2 H3. rewrite Headers_Error.
  rewrite !lookup_insert_ne by congruence.
  now rewrite lookup_delete_ne by congruence.
Qed.

Lemma HeaderValueLast_Request (a b : exchange.Exchange) (name : string) :
  exchange.Request a = exchange.Request b ->
  exchange.HeaderValueLast a name = exchange.HeaderValueLast b name.
Proof. unfold exchange.HeaderValueLast. now intros ->. Qed.

(** X7.  The two 404 responses of [ServeHTTP] have the same body but not
    the same headers.  For a path outside the prefix the response writer
    gets the body [404 page not found] and, the three headers of
    [http.Error] apart, keeps the headers it had: neither [X-Powered-By]
    nor a CORS header is set, and nothing is logged.  For a path under
    the prefix that no route matches, the same body is written on a
    response that has [X-Powered-By] and, when the request has an
    origin, the CORS pair for it. *)
Theorem ServeHTTP_NotFound_response (s : server.Server)
  (w : http.ResponseWriter) (req : http.Request) (out : list output) :
  let path := url.Path (http.URL req) in
  let prefix := spec.PathPrefix (server.spec_ s) in
  let ex := exchange.New w req (server.spec_ s) in
  let origin := exchange.HeaderValueLast ex "Origin" in
  (strings.HasPrefix path prefix = false ->
   exists w',
     server.ServeHTTP s w req out = Some (w', out)
     /\ http.Written w'
        = http.Written w +:+ "404 page not found" +:+ exchange.newline
     /\ forall key,
          key <> "Content-Length" -> key <> "Content-Type" ->
          key <> "X-Content-Type-Options" ->
          http.Headers w' !! key = http.Headers w !! key)
  /\ (strings.HasPrefix path prefix = true ->
      (forall r, r ∈ server.routes_ s ->
         regexp.FindStringSubmatch (routes.Pat r)
           (strings.TrimPrefix path prefix) = None) ->
      exists w' out',
        server.ServeHTTP s w req out = Some (w', out')
        /\ http.Written w'
           = http.Written w +:+ "404 page not found" +:+ exchange.newline
        /\ http.Headers w' !! "X-Powered-By"
           = Some ["httpbun/" +:+ spec.Commit (server.spec_ s)]
        /\ (origin <> "" ->
            http.Headers w' !! "Access-Control-Allow-Origin" = Some [origin]
            /\ http.Headers w' !! "Access-Control-Allow-Credentials"
               = Some ["true"])).
Proof.
  destruct canonical_keys as (Ho & Hc & _ & _ & Hp & _).
  intros path prefix ex origin. unfold server.ServeHTTP. fold path prefix ex.
  split.
  - intros ->. cbn [negb]. eexists. split; [reflexivity|]. split.
    + unfold http.NotFound. apply Written_Error.
    + intros key H1 H2 H3. unfold http.NotFound. now apply lookup_Error.
  - intros -> Hnone. cbn [negb].
    destruct (exchange.FindIncomingIPAddress ex out) as [ip out0].
    rewrite <- (app_nil_r (server.routes_ s)).
    rewrite serveRoutes_skip
      by (subst ex; rewrite New_Path; exact Hnone).
    cbn [server.serveRoutes]. eexists _, _. split; [reflexivity|].
    unfold http.NotFound. split; [|split].
    + rewrite Written_Error. unfold http.Written. subst ex.
      now rewrite New_calls.
    + rewrite lookup_Error by discriminate.
      subst ex. rewrite New_stages, Headers_setHeader, Hp.
      apply lookup_insert_eq.
    + intros Horigin. rewrite !lookup_Error by discriminate.
      subst ex. rewrite !New_lookup_cors by auto.
      assert (E : exchange.HeaderValueLast
                    (New_host (New_base w req (server.spec_ s)) req) "Origin"
                  = origin).
      { subst origin. apply HeaderValueLast_Request.
        destruct (same_New w req (server.spec_ s)) as (-> & _). reflexivity. }
      unfold New_origin. cbv zeta. rewrite E.
      apply String.eqb_neq in Horigin. rewrite Horigin. cbn [negb].
      split.
      * rewrite lookup_setHeader_ne by (rewrite Hc; discriminate).
        rewrite Headers_setHeader, Ho. apply lookup_insert_eq.
      * rewrite Headers_setHeader, Hc. apply lookup_insert_eq.
Qed.

(** A request for [/other] to the server mounted under [/api]: the
    response has the body of a 404 and no [X-Powered-By]. *)
Lemma ServeHTTP_NotFound_response_witness :
  exists w',
    server.ServeHTTP sample.twoRoutes sample.writer
      (sample.get "/other" "" [("Origin", ["https://a.example"])]
         "192.0.2.7:51234") []
    = Some (w', [])
    /\ http.Written w' = "404 page not found" +:+ exchange.newline
    /\ http.Headers w' !! "X-Powered-By" = None
    /\ http.Headers w' !! "Access-Control-Allow-Origin" = None.
Proof.
  destruct (proj1 (ServeHTTP_NotFound_response sample.twoRoutes sample.writer
                     (sample.get "/other" ""
                        [("Origin", ["https://a.example"])]
                        "192.0.2.7:51234") []))
    as (w' & Hserve & Hbody & Hheaders).
  - reflexivity.
  - exists w'. split; [exact Hserve|]. split; [exact Hbody|].
    split; rewrite Hheaders by discriminate; reflexivity.
Defined.

(** ** Reading the body a second time *)

Section ReadAllState.
Variable grow : nat -> nat.
Hypothesis grow_larger : forall c, (c < grow c)%nat.


End ReadAllState.





(** ** Responses with a status *)

Section Helpers.
Variable operand : Type.
Variable Sprintf : string -> list operand -> string.
Variable StatusText : Z -> string.

(** X9.  [RespondWithStatus(code)] appends the reason phrase of the
    code and a line feed to the body, and [RespondBadRequest(message,
    vars...)] the formatted message and a line feed.  The status they
    pass to [WriteHeader] (the code, resp. 400) is the status of the
    response when nothing was written before; on a response already
    begun the status stays what it was and the text is appended all the
    same.  Neither sets a header.  On a connection that fails, each of
    the two writes logs its error ([Write], and [WriteBytes] for the
    line feed of [RespondBadRequest]) and nothing else happens. *)
Theorem Respond_status_and_body (ex : exchange.Exchange) (code : Z)
  (message : string) (vars : list operand) (out : list output) :
  let w := exchange.ResponseWriter ex in
  let r1 := exchange.RespondWithStatus StatusText ex code out in
  let r2 := exchange.RespondBadRequest operand Sprintf ex message vars out in
  let w1 := exchange.ResponseWriter (fst r1) in
  let w2 := exchange.ResponseWriter (fst r2) in
  http.Written w1 = http.Written w +:+ StatusText code +:+ exchange.newline
  /\ http.Written w2
     = http.Written w +:+ Sprintf message vars +:+ exchange.newline
  /\ (http.calls w = [] ->
      http.Status w1 = Some code /\ http.Status w2 = Some 400)
  /\ (http.calls w <> [] ->
      http.Status w1 = http.Status w /\ http.Status w2 = http.Status w)
  /\ http.Headers w1 = http.Headers w /\ http.Headers w2 = http.Headers w
  /\ (http.broken w = None -> snd r1 = out /\ snd r2 = out)
  /\ (forall err, http.broken w = Some err ->
        snd r1
        = out ++ [log_Printf ("Error writing to exchange response: %v"
                               +:+ exchange.newline) [VError err];
                  log_Printf ("Error writing to exchange response: %v"
                               +:+ exchange.newline) [VError err]]
        /\ snd r2
           = out ++ [log_Printf ("Error writing to exchange response: %v"
                                  +:+ exchange.newline) [VError err];
                     log_Printf
                       ("Error writing bytes to exchange response: %v"
                        +:+ exchange.newline) [VError err]]).
Proof.
  intros w r1 r2 w1 w2.
  assert (E1 : w1 = fst (http.Write
                           (fst (http.Write (http.WriteHeader w code)
                                   (StatusText code)))
                           exchange.newline)) by reflexivity.
  assert (E2 : w2 = fst (http.Write
                           (fst (http.Write
                                   (http.WriteHeader w http.StatusBadRequest)
                                   (Sprintf message vars)))
                           exchange.newline)) by reflexivity.
  split; [|split; [|split; [|split; [|split; [|split; [|split]]]]]].
  - now rewrite E1, !Written_Write, Written_WriteHeader, append_assoc.
  - now rewrite E2, !Written_Write, Written_WriteHeader, append_assoc.
  - intros Hc. rewrite E1, E2. unfold http.Status, http.Write, http.WriteHeader.
    cbn [fst http.calls]. now rewrite Hc.
  - intros Hc. rewrite E1, E2. unfold http.Status, http.Write, http.WriteHeader.
    cbn [fst http.calls]. now destruct (http.calls w).
  - now rewrite E1.
  - now rewrite E2.
  - intros Hb. subst r1 r2.
    unfold exchange.RespondWithStatus, exchange.RespondBadRequest,
      exchange.WriteLn, exchange.WriteF, exchange.WriteBytes, exchange.Write.
    proj_exchange. fold w. now rewrite Hb.
  - intros err Hb. subst r1 r2.
    unfold exchange.RespondWithStatus, exchange.RespondBadRequest,
      exchange.WriteLn, exchange.WriteF, exchange.WriteBytes, exchange.Write.
    proj_exchange. fold w. rewrite Hb. now rewrite <- !app_assoc.
Qed.

End Helpers.

(** [RespondBadRequest] with the message [missing %s] on a response not
    yet begun: the status is 400. *)
Lemma Respond_status_and_body_witness :
  let ex := exchange.New sample.writer
              (sample.get "/range" "" [] "192.0.2.7:51234")
              (sample.config "") in
  let w := exchange.ResponseWriter
             (fst (exchange.RespondBadRequest string (fmt.Sprintf (fun s => s))
                     ex "missing %s" ["n"] [])) in
  http.Status w = Some 400
  /\ http.Written w = "missing n" +:+ exchange.newline.
Proof.
  cbv zeta.
  destruct (Respond_status_and_body string (fmt.Sprintf (fun s => s))
              (fun _ => "Not Found")
              (exchange.New sample.writer
                 (sample.get "/range" "" [] "192.0.2.7:51234")
                 (sample.config ""))
              404 "missing %s" ["n"] [])
    as (_ & Hbody & Hstatus & _).
  split.
  - apply Hstatus. reflexivity.
  - rewrite Hbody. vm_compute. reflexivity.
Defined.

(** ** A redirect and the request that follows it *)

Lemma Redirect_Location (q : string -> string) (ex : exchange.Exchange)
  (target : string) (out : list output) :
  textproto.Get
    (http.Headers (exchange.ResponseWriter
                     (fst (exchange.Redirect q ex target out)))) "Location"
  = if strings.HasPrefix target "/"
    then spec.PathPrefix (exchange.ServerSpec ex) +:+ target
    else target.
Proof.
  destruct canonical_keys as (_ & _ & _ & _ & _ & Hl).
  unfold exchange.Redirect. proj_exchange. unfold textproto.Set_.
  rewrite Hl. apply Get_lookup; [exact Hl | apply lookup_insert_eq].
Qed.

(** X10.  A redirect to a target that starts with a slash comes back to
    the target: a request whose path is the [Location] that [Redirect]
    set passes the prefix test of [ServeHTTP], and the path [New]
    derives for it (the path the routes are matched against) is the
    target. *)
Theorem Redirect_then_New (q : string -> string) (ex : exchange.Exchange)
  (target : string) (out : list output) (w : http.ResponseWriter)
  (req : http.Request) :
  let location :=
    textproto.Get
      (http.Headers (exchange.ResponseWriter
                       (fst (exchange.Redirect q ex target out))))
      "Location" in
  strings.HasPrefix target "/" = true ->
  url.Path (http.URL req) = location ->
  strings.HasPrefix (url.Path (http.URL req))
    (spec.PathPrefix (exchange.ServerSpec ex)) = true
  /\ url.Path (exchange.URL (exchange.New w req (exchange.ServerSpec ex)))
     = target.
Proof.
  intros location Htarget Hpath. subst location.
  rewrite Redirect_Location, Htarget in Hpath.
  rewrite New_Path, Hpath. split.
  - apply HasPrefix_iff. now exists target.
  - apply TrimPrefix_app.
Qed.

(** Under the prefix [/api], a redirect to [/a/b] and the request for
    [/api/a/b] that follows. *)
Lemma Redirect_then_New_witness :
  let ex := exchange.New sample.writer
              (sample.get "/api/redirect" "" [] "192.0.2.7:51234")
              (sample.config "/api") in
  let req := sample.get "/api/a/b" "" [] "192.0.2.7:51234" in
  strings.HasPrefix (url.Path (http.URL req)) "/api" = true
  /\ url.Path (exchange.URL (exchange.New sample.writer req
                               (sample.config "/api")))
     = "/a/b".
Proof.
  cbv zeta.
  apply (Redirect_then_New (fun s => s)
           (exchange.New sample.writer
              (sample.get "/api/redirect" "" [] "192.0.2.7:51234")
              (sample.config "/api"))
           "/a/b" [] sample.writer
           (sample.get "/api/a/b" "" [] "192.0.2.7:51234")).
  - reflexivity.
  - vm_compute. reflexivity.
Defined.

(** ** What [New] leaves alone *)

(** X11.  [New] changes nothing of the response but five headers: every
    header of the response writer other than
    [Access-Control-Allow-Origin], [Access-Control-Allow-Credentials],
    [Access-Control-Allow-Headers], [Access-Control-Allow-Methods] and
    [X-Powered-By] is as it was, and nothing is written.  The request
    of the Exchange is the request received (its URL keeps the prefix),
    the field map is empty and the configuration is the one given. *)
Theorem New_frame (w : http.ResponseWriter) (req : http.Request)
  (serverSpec : spec.Spec) :
  let ex := exchange.New w req serverSpec in
  let w' := exchange.ResponseWriter ex in
  (forall key,
     key <> "Access-Control-Allow-Origin" ->
     key <> "Access-Control-Allow-Credentials" ->
     key <> "Access-Control-Allow-Headers" ->
     key <> "Access-Control-Allow-Methods" ->
     key <> "X-Powered-By" ->
     http.Headers w' !! key = http.Headers w !! key)
  /\ http.calls w' = http.calls w
  /\ http.broken w' = http.broken w
  /\ exchange.Request ex = req
  /\ exchange.Fields ex = ∅
  /\ exchange.ServerSpec ex = serverSpec.
Proof.
  destruct canonical_keys as (Ho & Hc & Hh & Hm & Hp & _).
  intros ex w'. subst w' ex.
  destruct (same_New w req serverSpec) as (HR & HF & _ & _ & HS & HC & HB).
  assert (Hbase : forall P : exchange.Exchange -> Prop,
            P (New_base w req serverSpec) ->
            P (exchange.set_URL (New_base w req serverSpec)
                 (exchange.set_Host (exchange.URL (New_base w req serverSpec))
                    (http.Host req))) ->
            P (New_host (New_base w req serverSpec) req))
    by (intros P H1 H2; unfold New_host; now destruct (_ && _)).
  split; [|repeat split].
  - intros key H1 H2 H3 H4 H5. rewrite New_stages.
    rewrite lookup_setHeader_ne, !lookup_New_echo
      by (rewrite ?Hh, ?Hm, ?Hp; congruence).
    unfold New_origin. cbv zeta. destruct (negb _).
    + rewrite !lookup_setHeader_ne by (rewrite ?Ho, ?Hc; congruence).
      apply Hbase; reflexivity.
    + apply Hbase; reflexivity.
  - rewrite HC. apply Hbase; reflexivity.
  - rewrite HB. apply Hbase; reflexivity.
  - rewrite HR. apply Hbase; reflexivity.
  - rewrite HF. apply Hbase; reflexivity.
  - rewrite HS. apply Hbase; reflexivity.
Qed.

(** A response writer that has a [Content-Type] keeps it through
    [New]. *)
Lemma New_frame_witness :
  let w := {| http.Headers := {[ "Content-Type" := ["text/html"] ]};
              http.calls := []; http.broken := None |} in
  http.Headers
    (exchange.ResponseWriter
       (exchange.New w
          (sample.get "/get" "" [("Origin", ["https://a.example"])]
             "192.0.2.7:51234")
          (sample.config "")))
    !! "Content-Type"
  = Some ["text/html"].
Proof.
  cbv zeta.
  rewrite (proj1 (New_frame
                    {| http.Headers := {[ "Content-Type" := ["text/html"] ]};
                       http.calls := []; http.broken := None |}
                    (sample.get "/get" "" [("Origin", ["https://a.example"])]
                       "192.0.2.7:51234")
                    (sample.config "")) "Content-Type")
    by discriminate.
  reflexivity.
Defined.

(** ** The dispatcher returns *)

Lemma serveRoutes_returns (rs : list routes.Route) :
  (forall r, r ∈ rs -> regexp.WellFormed (routes.Pat r)) ->
  forall (ex : exchange.Exchange) (ip : string) (out : list output),
    exists w' out', server.serveRoutes rs ex ip out = Some (w', out').
Proof.
  induction rs as [|route rs IH]; intros Hwf ex ip out;
    cbn [server.serveRoutes].
  - eauto.
  - destruct (MatchAndLoadFields_cases ex (routes.Pat route))
      as [[_ ->] | (m & fields & _ & _ & ->)].
    + apply Hwf. now left.
    + apply IH. intros r Hr. apply Hwf. now right.
    + destruct (routes.Fn route _ _). eauto.
Qed.

(** X12.  [ServeHTTP] does not panic: when the pattern of every route
    gives, for a match, one element for each of its group names (as
    every compiled pattern does), it returns for every request and
    every response writer, whatever the route table and the prefix. *)
Theorem ServeHTTP_returns (s : server.Server) (w : http.ResponseWriter)
  (req : http.Request) (out : list output) :
  (forall r, r ∈ server.routes_ s -> regexp.WellFormed (routes.Pat r)) ->
  exists w' out', server.ServeHTTP s w req out = Some (w', out').
Proof.
  intros Hwf. unfold server.ServeHTTP.
  destruct (negb _); [eauto|].
  destruct (exchange.FindIncomingIPAddress _ out) as [ip out0].
  now apply serveRoutes_returns.
Qed.

(** The server with two compiled routes returns for a request that no
    route matches. *)
Lemma ServeHTTP_returns_witness :
  exists w' out',
    server.ServeHTTP sample.twoRoutes sample.writer
      (sample.get "/api/zzz" "" [] "192.0.2.7:51234") []
    = Some (w', out').
Proof.
  apply (ServeHTTP_returns sample.twoRoutes sample.writer
           (sample.get "/api/zzz" "" [] "192.0.2.7:51234") []).
  intros r Hr.
  apply elem_of_cons in Hr as [->|Hr]; [apply MustCompile_WellFormed|].
  apply elem_of_cons in Hr as [->|Hr]; [apply MustCompile_WellFormed|].
  inversion Hr.
Defined.
